(** * homework_bot: the polling-and-notify loop of [homework.py]

    A shallow embedding of [homework.py] (a Telegram bot that polls the
    Practicum homework API every [RETRY_TIME] seconds) and the properties of
    its functions [get_api_answer], [check_response], [parse_status],
    [check_tokens] and [main].

    Python values decoded from JSON are an inductive type; Python strings are
    [string]s holding their UTF-8 bytes; exceptions are a class tag and an
    optional message; the functions that touch the network, the clock, the
    log or the chat run in a state-and-exception monad over a [machine] that
    holds the local variables of [main], the scripted behaviour of the outside
    world and the trace of calls made so far. *)

From Stdlib Require Import String Ascii List ZArith Bool Lia DecimalString.
Import ListNotations.
Local Open Scope string_scope.
Local Open Scope Z_scope.
Set Warnings "-register-all".

(** ** Strings *)

Module Str.

(** The double quote character, which the Python source writes inside
    single-quoted literals. *)
Definition dq : string := String "034"%char EmptyString.
Definition sq : string := String "039"%char EmptyString.

(** [isprefix p s]: [s.startswith(p)]. *)
Fixpoint isprefix (p s : string) : bool :=
  match p, s with
  | EmptyString, _ => true
  | String a p', String b s' => Ascii.eqb a b && isprefix p' s'
  | String _ _, EmptyString => false
  end.

(** [isin t s]: the Python expression [t in s] on two strings. *)
Fixpoint isin (t s : string) : bool :=
  isprefix t s ||
  match s with
  | EmptyString => false
  | String _ s' => isin t s'
  end.

(** The propositional reading of [isin]. *)
Definition contains (s t : string) : Prop :=
  exists a b, s = a ++ t ++ b.

(** [str(z)] for a Python int. *)
Definition of_Z (z : Z) : string := NilZero.string_of_int (Z.to_int z).

(** [sep.join(l)]. *)
Fixpoint join (sep : string) (l : list string) : string :=
  match l with
  | [] => ""
  | [x] => x
  | x :: l' => x ++ sep ++ join sep l'
  end.

Definition hexdigit (n : N) : ascii :=
  if (n <? 10)%N then ascii_of_N (48 + n) else ascii_of_N (87 + n).

(** One character of [repr(s)] inside the quotes [q]. *)
Definition escape_char (q c : ascii) : string :=
  let n := N_of_ascii c in
  if Ascii.eqb c "\"%char then "\\"
  else if Ascii.eqb c q then String "\"%char (String q EmptyString)
  else if (n =? 10)%N then "\n"
  else if (n =? 13)%N then "\r"
  else if (n =? 9)%N then "\t"
  else if ((n <? 32) || (n =? 127))%N
       then "\x" ++ String (hexdigit (n / 16)) (String (hexdigit (n mod 16)) EmptyString)
  else String c EmptyString.

Fixpoint escape (q : ascii) (s : string) : string :=
  match s with
  | EmptyString => EmptyString
  | String c s' => escape_char q c ++ escape q s'
  end.

(** [repr(s)] for a Python str: single quotes, unless the text holds a single
    quote and no double quote; backslash, the chosen quote and the ASCII
    control characters are escaped.  Bytes above 127 are kept: this is what
    Python does for the printable characters they encode (the Cyrillic text
    of the messages), and not for the characters above U+007F that Python
    escapes (U+00A0 and the like).  [rendered_exactly], below, names the
    values for which nothing depends on this. *)
Definition repr (s : string) : string :=
  let q := if isin sq s && negb (isin dq s) then "034"%char else "039"%char in
  String q (escape q s) ++ String q EmptyString.

End Str.

(** ** Python values, as [json.loads] produces them *)

(** JSON numbers with a fraction or an exponent decode to floats; nothing in
    [homework.py] computes with one, and they are left out of the value
    type. *)
Inductive pyval : Type :=
| PNone
| PBool (b : bool)
| PInt (z : Z)
| PStr (s : string)
| PList (l : list pyval)
| PDict (d : list (string * pyval)).

(** A dict keeps its keys in insertion order, which [repr] shows; [lookup]
    returns the value of the first pair with the key.  [json] builds no dict
    with a key twice, and nothing below depends on it. *)
Fixpoint lookup (k : string) (d : list (string * pyval)) : option pyval :=
  match d with
  | [] => None
  | (k', v) :: d' => if String.eqb k k' then Some v else lookup k d'
  end.

Definition has_key (k : string) (d : list (string * pyval)) : bool :=
  match lookup k d with Some _ => true | None => false end.

(** [type(v).__name__]. *)
Definition type_name (v : pyval) : string :=
  match v with
  | PNone => "NoneType"
  | PBool _ => "bool"
  | PInt _ => "int"
  | PStr _ => "str"
  | PList _ => "list"
  | PDict _ => "dict"
  end.

(** [bool(v)]. *)
Definition truthy (v : pyval) : bool :=
  match v with
  | PNone => false
  | PBool b => b
  | PInt z => negb (z =? 0)
  | PStr s => negb (String.eqb s "")
  | PList l => match l with [] => false | _ => true end
  | PDict d => match d with [] => false | _ => true end
  end.

(** [a or b]. *)
Definition py_or (a b : pyval) : pyval := if truthy a then a else b.

(** [v is None]. *)
Definition is_None (v : pyval) : bool :=
  match v with PNone => true | _ => false end.

(** [s == v] for a str [s]: only an equal str compares equal. *)
Definition str_eq (s : string) (v : pyval) : bool :=
  match v with PStr s' => String.eqb s s' | _ => false end.

(** [repr(v)]. *)
Fixpoint py_repr (v : pyval) : string :=
  match v with
  | PNone => "None"
  | PBool true => "True"
  | PBool false => "False"
  | PInt z => Str.of_Z z
  | PStr s => Str.repr s
  | PList l => "[" ++ Str.join ", " (map py_repr l) ++ "]"
  | PDict d =>
      "{" ++ Str.join ", "
               (map (fun kv => Str.repr (fst kv) ++ ": " ++ py_repr (snd kv)) d)
          ++ "}"
  end.

(** [str(v)], which is also what an f-string field [{v}] interpolates. *)
Definition py_str (v : pyval) : string :=
  match v with
  | PStr s => s
  | _ => py_repr v
  end.

(** [s] holds ASCII characters only. *)
Fixpoint ascii_only (s : string) : bool :=
  match s with
  | EmptyString => true
  | String c s' => (N_of_ascii c <? 128)%N && ascii_only s'
  end.

(** No text occurs twice in [l]. *)
Fixpoint distinct (l : list string) : bool :=
  match l with
  | [] => true
  | k :: l' => negb (existsb (String.eqb k) l') && distinct l'
  end.

(** The values whose [repr] is that of Python character for character: the
    texts shown inside it are ASCII, and the keys of a mapping are
    distinct. *)
Fixpoint plain (v : pyval) : bool :=
  match v with
  | PStr s => ascii_only s
  | PList l => forallb plain l
  | PDict d =>
      distinct (map fst d) &&
      forallb (fun kv => ascii_only (fst kv) && plain (snd kv)) d
  | _ => true
  end.

(** The values whose [str] is that of Python character for character: every
    text (its [str] is the text itself), and the values that are [plain]. *)
Definition rendered_exactly (v : pyval) : bool :=
  match v with
  | PStr _ => true
  | _ => plain v
  end.

(** ** Exceptions *)

(** The exception classes [homework.py] raises, names or can be handed by the
    libraries it calls. *)
Inductive exc_class : Type :=
| BaseException | KeyboardInterrupt | SystemExit | Exception
| TypeError | AttributeError | LookupError | KeyError
| ValueError | JSONDecodeError
| OSError | ConnectionError
| RequestException | RequestsConnectionError | RequestsTimeout
| InvalidToken
| GetApiAnswerException | ParametersApiException | UnknownStatusException.

(** Modelled from the spec: [exceptions.py], which declares
    [GetApiAnswerException], [ParametersApiException] and
    [UnknownStatusException], is not among the sources.  The spec lists the
    failure kinds as a flat set, all caught at the orchestrator boundary, so
    the three classes are direct subclasses of [Exception] that keep its
    [__str__].  The other classes have the bases the Python library and
    [requests] give them; [InvalidToken] is [telegram.error.InvalidToken],
    which the constructor of [telegram.Bot] raises for a token it cannot
    accept and which reaches [Exception] through [telegram.TelegramError]. *)
Definition base (c : exc_class) : option exc_class :=
  match c with
  | BaseException => None
  | KeyboardInterrupt | SystemExit | Exception => Some BaseException
  | TypeError | AttributeError | LookupError | ValueError | OSError =>
      Some Exception
  | KeyError => Some LookupError
  | JSONDecodeError => Some ValueError
  | ConnectionError => Some OSError
  | RequestException => Some OSError
  | RequestsConnectionError | RequestsTimeout => Some RequestException
  | InvalidToken => Some Exception
  | GetApiAnswerException | ParametersApiException | UnknownStatusException =>
      Some Exception
  end.

Definition exc_class_eqb (c d : exc_class) : bool :=
  match c, d with
  | BaseException, BaseException | KeyboardInterrupt, KeyboardInterrupt
  | SystemExit, SystemExit | Exception, Exception | TypeError, TypeError
  | AttributeError, AttributeError | LookupError, LookupError
  | KeyError, KeyError | ValueError, ValueError
  | JSONDecodeError, JSONDecodeError | OSError, OSError
  | ConnectionError, ConnectionError | RequestException, RequestException
  | RequestsConnectionError, RequestsConnectionError
  | RequestsTimeout, RequestsTimeout
  | InvalidToken, InvalidToken
  | GetApiAnswerException, GetApiAnswerException
  | ParametersApiException, ParametersApiException
  | UnknownStatusException, UnknownStatusException => true
  | _, _ => false
  end.

(** [issubclass(c, d)]; no chain of bases is longer than five. *)
Fixpoint issubclass_upto (fuel : nat) (c d : exc_class) : bool :=
  exc_class_eqb c d ||
  match fuel, base c with
  | S fuel', Some c' => issubclass_upto fuel' c' d
  | _, _ => false
  end.

Definition issubclass : exc_class -> exc_class -> bool := issubclass_upto 5.

(** An exception object: its class and the single string argument it was
    built with, if any ([raise GetApiAnswerException] builds one with
    none). *)
Record exn : Type := mk_exn { exn_class : exc_class; exn_arg : option string }.

(** [str(error)]: the argument, or the empty string without one; [KeyError]
    shows the [repr] of its argument. *)
Definition exn_str (e : exn) : string :=
  match exn_arg e with
  | None => ""
  | Some m => if issubclass (exn_class e) KeyError then Str.repr m else m
  end.

(** [except c:] catches [e]. *)
Definition caught_by (c : exc_class) (e : exn) : bool :=
  issubclass (exn_class e) c.

(** What evaluating an expression or running a call ends in. *)
Inductive outcome (A : Type) : Type :=
| Ok (a : A)
| Raise (e : exn).
Arguments Ok {A} a.
Arguments Raise {A} e.

Definition raise_ {A} (c : exc_class) (m : string) : outcome A :=
  Raise (mk_exn c (Some m)).

(** ** Operators on decoded values *)

(** [s in v] for a str [s].  The wording of the interpreter's own
    [TypeError]s, here and below, is that of CPython 3.9. *)
Definition str_in (s : string) (v : pyval) : outcome bool :=
  match v with
  | PList l => Ok (existsb (str_eq s) l)
  | PDict d => Ok (has_key s d)
  | PStr t => Ok (Str.isin s t)
  | _ => raise_ TypeError
           ("argument of type '" ++ type_name v ++ "' is not iterable")
  end.

(** [v[k]] for a str [k]. *)
Definition getitem (v : pyval) (k : string) : outcome pyval :=
  match v with
  | PDict d =>
      match lookup k d with
      | Some x => Ok x
      | None => raise_ KeyError k
      end
  | PList _ => raise_ TypeError "list indices must be integers or slices, not str"
  | PStr _ => raise_ TypeError "string indices must be integers"
  | _ => raise_ TypeError ("'" ++ type_name v ++ "' object is not subscriptable")
  end.

(** [v.get(k)]: [dict.get] with its default [None]; the other decoded types
    have no attribute [get]. *)
Definition get_method (v : pyval) (k : string) : outcome pyval :=
  match v with
  | PDict d => Ok (match lookup k d with Some x => x | None => PNone end)
  | _ => raise_ AttributeError
           ("'" ++ type_name v ++ "' object has no attribute 'get'")
  end.

(** ** The constants of the module *)

Definition RETRY_TIME : Z := 600.

Definition HOMEWORK_STATUSES : list (string * string) :=
  [ ("approved", "Работа проверена: ревьюеру всё понравилось. Ура!");
    ("reviewing", "Работа взята на проверку ревьюером.");
    ("rejected", "Работа проверена: у ревьюера есть замечания.") ].

Fixpoint assoc (k : string) (t : list (string * string)) : option string :=
  match t with
  | [] => None
  | (k', v) :: t' => if String.eqb k k' then Some v else assoc k t'
  end.

(** Looking [v] up in [HOMEWORK_STATUSES] ([v not in HOMEWORK_STATUSES], then
    [HOMEWORK_STATUSES[v]]): a list or a dict cannot be hashed; any other
    value that is not one of the three keys is not found. *)
Definition status_lookup (v : pyval) : outcome (option string) :=
  match v with
  | PList _ | PDict _ =>
      raise_ TypeError ("unhashable type: '" ++ type_name v ++ "'")
  | PStr s => Ok (assoc s HOMEWORK_STATUSES)
  | _ => Ok None
  end.

(** The three values read from the environment when the module is loaded;
    [os.getenv] gives [None] for a variable that is not set. *)
Record config : Type := mk_config {
  PRACTICUM_TOKEN : option string;
  TELEGRAM_TOKEN : option string;
  TELEGRAM_CHAT_ID : option string
}.

Definition env_value (v : option string) : pyval :=
  match v with Some s => PStr s | None => PNone end.

(** [HEADERS['Authorization']]. *)
Definition authorization (cfg : config) : string :=
  "OAuth " ++ py_str (env_value (PRACTICUM_TOKEN cfg)).

(** ** The functions without effects *)

(** [check_response(response)], lines 94 to 110. *)
Definition check_response (response : pyval) : outcome pyval :=
  match response with
  | PDict _ =>
      match get_method response "homeworks" with
      | Raise e => Raise e
      | Ok homework =>
          match str_in "homeworks" homework with
          | Raise e => Raise e
          | Ok true => raise_ KeyError "Нет ключа homeworks"
          | Ok false =>
              match homework with
              | PList _ => Ok homework
              | _ => raise_ TypeError "Ответ не является списком"
              end
          end
      end
  | _ => raise_ TypeError "Запрос не соответвует формату"
  end.

(** The template of line 132. *)
Definition status_message (homework_name : pyval) (verdict : string) : string :=
  "Изменился статус проверки работы " ++ Str.dq ++ py_str homework_name
    ++ Str.dq ++ ". " ++ verdict.

(** [parse_status(homework)], lines 113 to 132. *)
Definition parse_status (homework : pyval) : outcome string :=
  match str_in "homework_name" homework with
  | Raise e => Raise e
  | Ok false =>
      raise_ KeyError ("Отсутствует ключ " ++ Str.dq ++ "homework_name"
                         ++ Str.dq ++ " в ответе API")
  | Ok true =>
      match str_in "homework_status" homework with
      | Raise e => Raise e
      | Ok true =>
          raise_ KeyError ("Отсутствует ключ " ++ Str.dq ++ "status"
                             ++ Str.dq ++ " в ответе API")
      | Ok false =>
          match getitem homework "homework_name" with
          | Raise e => Raise e
          | Ok homework_name =>
              match getitem homework "status" with
              | Raise e => Raise e
              | Ok homework_status =>
                  match status_lookup homework_status with
                  | Raise e => Raise e
                  | Ok None =>
                      raise_ UnknownStatusException "Неизвестный статус работы:"
                  | Ok (Some verdict) =>
                      Ok (status_message homework_name verdict)
                  end
              end
          end
      end
  end.

(** [check_tokens()], line 142: [all] of the three values, by truth value. *)
Definition check_tokens (cfg : config) : bool :=
  forallb truthy
    [ env_value (PRACTICUM_TOKEN cfg); env_value (TELEGRAM_TOKEN cfg);
      env_value (TELEGRAM_CHAT_ID cfg) ].

(** ** The outside world and the machine *)

Inductive logger_name : Type :=
| ModuleLogger   (* [logger], the logger of the module *)
| RootLogger.    (* [logging], the root logger *)

Inductive level : Type := INFO | ERROR | CRITICAL.

(** The place in [main] a chat message is sent from: line 161 (a status) or
    line 167 (an error).  It is bookkeeping of the model only; the bot sees
    the chat id and the text. *)
Inductive call_site : Type := StatusSite | ErrorSite.

(** The calls [homework.py] makes to the outside, in the order made. *)
Inductive event : Type :=
| EvBot (token : option string)
| EvGet (authorization : string) (params : pyval)
| EvSend (site : call_site) (chat_id : option string) (text : string)
| EvLog (lg : logger_name) (lvl : level) (text : string)
| EvSleep (secs : Z).

(** What [response.json()] does. *)
Inductive json_result : Type :=
| JsonValue (v : pyval)
| JsonRaises (e : exn).

Record response : Type := mk_response {
  status_code : Z;
  json : json_result
}.

(** What one call of [requests.get] does. *)
Inductive http_result : Type :=
| GetRaises (e : exn)
| GetReturns (r : response).

(** What one call of [bot.send_message] does.  python-telegram-bot reports
    every failure of a bot method as a [telegram.TelegramError]; an
    exception of another class, which line 56 would not catch, is not among
    the outcomes, so what is proved of [send_message] and of its callers is
    proved for a bot that keeps to this. *)
Inductive bot_result : Type :=
| Delivered
| TelegramError (text : string).

(** The local variables of [main], the behaviour of the outside world from
    now on ([server] and [chat] answer the calls still to come, in order) and
    the trace of the calls made so far. *)
Record machine : Type := mk_machine {
  current_timestamp : pyval;
  MESSAGE_STATUS : string;
  ERROR_CACHE_MESSAGE : string;
  clock : Z;
  server : nat -> http_result;
  chat : nat -> bot_result;
  bot_init : option exn;
  trace : list event
}.

Definition set_current_timestamp (v : pyval) (m : machine) : machine :=
  mk_machine v (MESSAGE_STATUS m) (ERROR_CACHE_MESSAGE m) (clock m) (server m)
             (chat m) (bot_init m) (trace m).
Definition set_MESSAGE_STATUS (s : string) (m : machine) : machine :=
  mk_machine (current_timestamp m) s (ERROR_CACHE_MESSAGE m) (clock m)
             (server m) (chat m) (bot_init m) (trace m).
Definition set_ERROR_CACHE_MESSAGE (s : string) (m : machine) : machine :=
  mk_machine (current_timestamp m) (MESSAGE_STATUS m) s (clock m) (server m)
             (chat m) (bot_init m) (trace m).
Definition set_clock (t : Z) (m : machine) : machine :=
  mk_machine (current_timestamp m) (MESSAGE_STATUS m) (ERROR_CACHE_MESSAGE m)
             t (server m) (chat m) (bot_init m) (trace m).
Definition next_server (m : machine) : machine :=
  mk_machine (current_timestamp m) (MESSAGE_STATUS m) (ERROR_CACHE_MESSAGE m)
             (clock m) (fun i => server m (S i)) (chat m) (bot_init m)
             (trace m).
Definition next_chat (m : machine) : machine :=
  mk_machine (current_timestamp m) (MESSAGE_STATUS m) (ERROR_CACHE_MESSAGE m)
             (clock m) (server m) (fun i => chat m (S i)) (bot_init m)
             (trace m).
Definition record (ev : event) (m : machine) : machine :=
  mk_machine (current_timestamp m) (MESSAGE_STATUS m) (ERROR_CACHE_MESSAGE m)
             (clock m) (server m) (chat m) (bot_init m) (trace m ++ [ev])%list.

(** ** The monad of the effectful functions *)

(** A computation runs on a machine and ends in a value or an exception; the
    machine it leaves behind keeps every change made before the exception. *)
Definition M (A : Type) : Type := machine -> outcome A * machine.

Definition ret {A} (a : A) : M A := fun m => (Ok a, m).

Definition bind {A B} (c : M A) (k : A -> M B) : M B :=
  fun m =>
    match c m with
    | (Ok a, m') => k a m'
    | (Raise e, m') => (Raise e, m')
    end.

Declare Scope monad_scope.
Delimit Scope monad_scope with monad.
Notation "x <- c ;; k" := (bind c (fun x => k))
  (at level 61, c at next level, right associativity) : monad_scope.
Notation "c ;; k" := (bind c (fun _ => k))
  (at level 61, right associativity) : monad_scope.
Local Open Scope monad_scope.

Definition raise {A} (e : exn) : M A := fun m => (Raise e, m).

Definition lift {A} (o : outcome A) : M A := fun m => (o, m).

Definition read {A} (f : machine -> A) : M A := fun m => (Ok (f m), m).

Definition update (f : machine -> machine) : M unit := fun m => (Ok tt, f m).

(** The first clause whose class the exception is an instance of. *)
Fixpoint handler_for {A} (clauses : list (exc_class * (exn -> M A))) (e : exn) :
  option (exn -> M A) :=
  match clauses with
  | [] => None
  | (c, h) :: rest => if caught_by c e then Some h else handler_for rest e
  end.

(** [try: c  except C1 as e: h1 e  except C2 as e: h2 e ...]: an exception
    raised inside a handler is not offered to the other clauses. *)
Definition try_except {A} (c : M A) (clauses : list (exc_class * (exn -> M A))) :
  M A :=
  fun m =>
    match c m with
    | (Ok a, m') => (Ok a, m')
    | (Raise e, m') =>
        match handler_for clauses e with
        | Some h => h e m'
        | None => (Raise e, m')
        end
    end.

(** [try: c  finally: f]: [f] runs whatever [c] ended in, and the outcome of
    [c] stands unless [f] raises. *)
Definition try_finally {A} (c : M A) (f : M unit) : M A :=
  fun m =>
    match c m with
    | (r, m') =>
        match f m' with
        | (Ok _, m'') => (r, m'')
        | (Raise e, m'') => (Raise e, m'')
        end
    end.

(** The first [n] rounds of [while True: body]. [Ok tt] after them means
    that the loop is still running. *)
Fixpoint while_True (n : nat) (body : M unit) : M unit :=
  match n with
  | O => ret tt
  | S n' => body ;; while_True n' body
  end.

(** ** The calls to the outside *)

Definition log (lg : logger_name) (lvl : level) (text : string) : M unit :=
  update (record (EvLog lg lvl text)).

(** [int(time.time())]. *)
Definition time_time : M Z := read clock.

(** [time.sleep(secs)], for a sleep that returns: an interrupt of the
    process during the sleep is not among the outcomes. *)
Definition time_sleep (secs : Z) : M unit :=
  update (record (EvSleep secs)) ;;
  t <- read clock ;;
  update (set_clock (t + secs)).

(** [requests.get(ENDPOINT, headers=HEADERS, params=params)]. *)
Definition requests_get (cfg : config) (params : pyval) : M response :=
  update (record (EvGet (authorization cfg) params)) ;;
  r <- read (fun m => server m O) ;;
  update next_server ;;
  match r with
  | GetRaises e => raise e
  | GetReturns resp => ret resp
  end.

(** [homework_statuses.json()]. *)
Definition response_json (r : response) : M pyval :=
  match json r with
  | JsonValue v => ret v
  | JsonRaises e => raise e
  end.

(** [bot.send_message(TELEGRAM_CHAT_ID, message)], called from [site]. *)
Definition bot_send_message (site : call_site) (cfg : config) (message : string) :
  M bot_result :=
  update (record (EvSend site (TELEGRAM_CHAT_ID cfg) message)) ;;
  r <- read (fun m => chat m O) ;;
  update next_chat ;;
  ret r.

(** [telegram.Bot(token=TELEGRAM_TOKEN)]. *)
Definition telegram_Bot (cfg : config) : M unit :=
  update (record (EvBot (TELEGRAM_TOKEN cfg))) ;;
  r <- read bot_init ;;
  match r with
  | Some e => raise e
  | None => ret tt
  end.

(** ** The effectful functions *)

(** [send_message(bot, message)], lines 46 to 57: the [TelegramError] of the
    bot is caught and logged. *)
Definition send_message (site : call_site) (cfg : config) (message : string) :
  M unit :=
  r <- bot_send_message site cfg message ;;
  match r with
  | Delivered =>
      log ModuleLogger INFO
          ("Сообщение в чат " ++ py_str (env_value (TELEGRAM_CHAT_ID cfg))
             ++ ":" ++ message)
  | TelegramError _ => log ModuleLogger INFO "Ошибка отправки сообщения"
  end.

(** Line 67: [timestamp = current_timestamp or int(time.time())]. *)
Definition timestamp_of (current_timestamp : pyval) : M pyval :=
  if truthy current_timestamp then ret current_timestamp
  else (t <- time_time ;; ret (PInt t)).

(** Line 68: [params = {'from_date': timestamp}]. *)
Definition params_of (timestamp : pyval) : pyval :=
  PDict [("from_date", timestamp)].

(** Line 69: [timestamp is None or params is None]. *)
Definition params_guard (timestamp : pyval) : bool :=
  is_None timestamp || is_None (params_of timestamp).

Definition parameters_error_text : string :=
  "Ошибка параметров для запроса к API".

(** [get_api_answer(current_timestamp)], lines 60 to 91. *)
Definition get_api_answer (cfg : config) (current_timestamp : pyval) : M pyval :=
  timestamp <- timestamp_of current_timestamp ;;
  let params := params_of timestamp in
  if params_guard timestamp then
    log ModuleLogger ERROR parameters_error_text ;;
    raise (mk_exn ParametersApiException (Some parameters_error_text))
  else
    homework_statuses <-
      try_except (requests_get cfg params)
        [ (GetApiAnswerException, fun error =>
             log RootLogger ERROR ("Ошибка при запросе к API: " ++ exn_str error) ;;
             raise (mk_exn GetApiAnswerException None)) ] ;;
    if negb (status_code homework_statuses =? 200) then
      log RootLogger ERROR ("Ошибка " ++ Str.of_Z (status_code homework_statuses)) ;;
      raise (mk_exn GetApiAnswerException
                    (Some ("Ошибка " ++ Str.of_Z (status_code homework_statuses))))
    else
      try_except (response_json homework_statuses)
        [ (JSONDecodeError, fun json_error =>
             log ModuleLogger ERROR "Ошибка парсинга ответа из формата json" ;;
             raise json_error);
          (ConnectionError, fun conn_error =>
             log ModuleLogger ERROR "Ошибка соединения" ;;
             raise conn_error) ].

(** The variable of [main] that remembers the last text sent from [site]:
    [MESSAGE_STATUS] for line 161, [ERROR_CACHE_MESSAGE] for line 167. *)
Definition slot (site : call_site) (m : machine) : string :=
  match site with
  | StatusSite => MESSAGE_STATUS m
  | ErrorSite => ERROR_CACHE_MESSAGE m
  end.

Definition set_slot (site : call_site) (text : string) (m : machine) : machine :=
  match site with
  | StatusSite => set_MESSAGE_STATUS text m
  | ErrorSite => set_ERROR_CACHE_MESSAGE text m
  end.

(** Lines 160 to 162 and 166 to 168 of [main]: send [message] from [site]
    unless it equals the last text sent from there, and remember it. *)
Definition notify_if_changed (site : call_site) (cfg : config)
    (message : string) : M unit :=
  last_sent <- read (slot site) ;;
  if negb (String.eqb message last_sent) then
    send_message site cfg message ;;
    update (set_slot site message)
  else ret tt.

Definition fatal_text : string :=
  "Отсутствует одна или несколько переменных окружения".

(** Lines 158 to 162: what the [try] does with the response. *)
Definition digest (cfg : config) (response : pyval) : M unit :=
  date <- lift (get_method response "current_date") ;;
  update (set_current_timestamp date) ;;
  homework <- lift (check_response response) ;;
  message <- lift (parse_status homework) ;;
  notify_if_changed StatusSite cfg message.

(** Lines 157 to 162: the body of the [try]. *)
Definition poll (cfg : config) : M unit :=
  cursor <- read current_timestamp ;;
  response <- get_api_answer cfg cursor ;;
  digest cfg response.

(** Lines 163 to 168: the body of [except Exception as error]. *)
Definition report (cfg : config) (error : exn) : M unit :=
  log ModuleLogger ERROR (exn_str error) ;;
  let message_info := exn_str error in
  notify_if_changed ErrorSite cfg message_info.

(** Lines 156 to 168: the [try] with its [except] clause. *)
Definition attempt (cfg : config) : M unit :=
  try_except (poll cfg) [ (Exception, report cfg) ].

(** Lines 156 to 170: one round of the loop. *)
Definition iteration (cfg : config) : M unit :=
  try_finally (attempt cfg) (time_sleep RETRY_TIME).

(** [main()], lines 145 to 170, with the first [n] rounds of its loop. *)
Definition main (cfg : config) (n : nat) : M unit :=
  telegram_Bot cfg ;;
  t <- time_time ;;
  update (set_current_timestamp (PInt t)) ;;
  update (set_MESSAGE_STATUS "") ;;
  update (set_ERROR_CACHE_MESSAGE "") ;;
  if negb (check_tokens cfg) then
    log ModuleLogger CRITICAL fatal_text ;;
    raise (mk_exn Exception (Some fatal_text))
  else while_True n (iteration cfg).

(** The machine [main] enters its loop on when it was started on [m]: the
    bot is built, the cursor is the time of the start and nothing is
    remembered as sent. *)
Definition loop_entry (cfg : config) (m : machine) : machine :=
  set_ERROR_CACHE_MESSAGE ""
    (set_MESSAGE_STATUS ""
       (set_current_timestamp (PInt (clock m))
          (record (EvBot (TELEGRAM_TOKEN cfg)) m))).

(** ** Reading a trace *)

(** The texts sent to the chat from [site], oldest first. *)
Fixpoint sent_from (site : call_site) (t : list event) : list string :=
  match t with
  | [] => []
  | EvSend s _ text :: t' =>
      match s, site with
      | StatusSite, StatusSite | ErrorSite, ErrorSite => text :: sent_from site t'
      | _, _ => sent_from site t'
      end
  | _ :: t' => sent_from site t'
  end.

(** All the texts sent to the chat, oldest first. *)
Fixpoint sent (t : list event) : list string :=
  match t with
  | [] => []
  | EvSend _ _ text :: t' => text :: sent t'
  | _ :: t' => sent t'
  end.

(** The [params] of the requests made to the API, oldest first. *)
Fixpoint requests (t : list event) : list pyval :=
  match t with
  | [] => []
  | EvGet _ params :: t' => params :: requests t'
  | _ :: t' => requests t'
  end.

(** The durations slept, oldest first. *)
Fixpoint sleeps (t : list event) : list Z :=
  match t with
  | [] => []
  | EvSleep secs :: t' => secs :: sleeps t'
  | _ :: t' => sleeps t'
  end.

(** No two neighbours of the list are equal. *)
Fixpoint no_repeat (l : list string) : Prop :=
  match l with
  | [] => True
  | x :: l' =>
      match l' with
      | [] => True
      | y :: _ => x <> y /\ no_repeat l'
      end
  end.

(** A machine at the start of the process: nothing has happened yet. *)
Definition boot (clock : Z) (server : nat -> http_result)
    (chat : nat -> bot_result) (bot_init : option exn) : machine :=
  mk_machine PNone "" "" clock server chat bot_init [].

(** The events a run from [m] to [m'] added to the trace. *)
Definition since (m m' : machine) : list event :=
  skipn (length (trace m)) (trace m').

(** ** Specifications of computations *)

(** [c] relates every machine to the one it leaves behind by [R], whatever
    it ends in. *)
Definition respects {A} (R : machine -> machine -> Prop) (c : M A) : Prop :=
  forall m, R m (snd (c m)).

(** The run only added events, each of which satisfies [Q]. *)
Definition emits (Q : event -> Prop) (m m' : machine) : Prop :=
  exists evs, trace m' = (trace m ++ evs)%list /\ Forall Q evs.

(** With [m0] the machine a run started on: the texts sent from [site]
    since then, after the text remembered at the start, never repeat, and the
    last of them is the text remembered now. *)
Definition tidy (site : call_site) (m0 m : machine) : Prop :=
  (exists evs, trace m = (trace m0 ++ evs)%list) /\
  no_repeat (slot site m0 :: sent_from site (since m0 m)) /\
  last (sent_from site (since m0 m)) (slot site m0) = slot site m.

(** The run keeps [tidy] for every start. *)
Definition keeps_tidy (site : call_site) (m m' : machine) : Prop :=
  forall m0, tidy site m0 m -> tidy site m0 m'.

(** The relations the rules below are about: preorders that allow the
    changes of the cursor, of the clock and of the scripts, and the lines of
    the log. *)
Record stepwise (R : machine -> machine -> Prop) : Prop := mk_stepwise {
  step_refl : forall m, R m m;
  step_trans : forall a b c, R a b -> R b c -> R a c;
  step_cursor : forall v m, R m (set_current_timestamp v m);
  step_clock : forall t m, R m (set_clock t m);
  step_server : forall m, R m (next_server m);
  step_chat : forall m, R m (next_chat m);
  step_log : forall lg lvl text m, R m (record (EvLog lg lvl text) m)
}.

Definition is_get (ev : event) : Prop :=
  match ev with EvGet _ _ => True | _ => False end.
Definition is_sleep (ev : event) : Prop :=
  match ev with EvSleep _ => True | _ => False end.

(** ** Inputs of the scenarios *)

Module Scenario.

Definition cfg : config := mk_config (Some "y0_token") (Some "123:bot") (Some "42").

(** The decoded response of the first end-to-end scenario. *)
Definition response_1 : pyval :=
  PDict [ ("homeworks",
           PList [ PDict [ ("homework_name", PStr "hw1");
                           ("status", PStr "approved") ] ]);
          ("current_date", PInt 1000) ].

Definition ok_200 (v : pyval) : http_result :=
  GetReturns (mk_response 200 (JsonValue v)).

(** A process started at time 5 whose API answers every request with
    [answer] and whose bot delivers every message. *)
Definition started (answer : http_result) : machine :=
  boot 5 (fun _ => answer) (fun _ => Delivered) None.

(** The text of the [KeyError] of line 124, as [str] shows it. *)
Definition name_error_text : string :=
  "'Отсутствует ключ " ++ Str.dq ++ "homework_name" ++ Str.dq ++ " в ответе API'".

(** An entry with a name, a known status and a further field. *)
Definition entry_with_homework_status : pyval :=
  PDict [ ("homework_name", PStr "hw1"); ("status", PStr "approved");
          ("homework_status", PStr "approved") ].

(** What [requests] raises when the connection fails. *)
Definition connection_failure : exn :=
  mk_exn RequestsConnectionError (Some "Connection refused").

(** All three variables are set, the first to the empty string. *)
Definition cfg_empty_token : config :=
  mk_config (Some "") (Some "123:bot") (Some "42").

(** All three variables are set and not empty; the token of the bot holds a
    space, which [telegram.Bot] does not accept. *)
Definition cfg_bad_bot_token : config :=
  mk_config (Some "y0_token") (Some "bot token") (Some "42").

(** What [telegram.Bot] raises for such a token. *)
Definition invalid_token : exn := mk_exn InvalidToken (Some "Invalid token").

(** A process started at time 5 whose [telegram.Bot] raises. *)
Definition started_without_bot : machine :=
  boot 5 (fun _ => ok_200 response_1) (fun _ => Delivered) (Some invalid_token).

End Scenario.

(** Every variable of the configuration is set. *)
Definition all_present (cfg : config) : Prop :=
  PRACTICUM_TOKEN cfg <> None /\ TELEGRAM_TOKEN cfg <> None /\
  TELEGRAM_CHAT_ID cfg <> None.

(** Every variable of the configuration is set to a text that is not
    empty. *)
Definition nonempty (v : option string) : Prop :=
  exists s, v = Some s /\ s <> "".

Definition all_nonempty (cfg : config) : Prop :=
  nonempty (PRACTICUM_TOKEN cfg) /\ nonempty (TELEGRAM_TOKEN cfg) /\
  nonempty (TELEGRAM_CHAT_ID cfg).

(** A value of the configuration that [check_tokens] counts as missing:
    the variable is not set, or set to the empty string. *)
Definition missing (v : option string) : Prop := v = None \/ v = Some "".

(** The failures of the transport, as [requests.get] raises them: the
    subclasses of [requests.exceptions.RequestException]. *)
Definition transport_failure (e : exn) : Prop :=
  issubclass (exn_class e) RequestException = true.

(** ** Summaries of a round *)

Definition is_log (ev : event) : Prop :=
  match ev with EvLog _ _ _ => True | _ => False end.

(** The answers of the API after which the fetch raises an exception that
    is not an [Exception]: [except Exception] (line 163) lets it leave the
    loop. *)
Definition escaping (h : http_result) : bool :=
  match h with
  | GetRaises e => negb (caught_by Exception e)
  | GetReturns r =>
      (status_code r =? 200) &&
      match json r with
      | JsonValue _ => false
      | JsonRaises e => negb (caught_by Exception e)
      end
  end.

(** The cursor a round leaves behind, by the answer of the API and the
    cursor before: only a decoded mapping changes it (line 158). *)
Definition next_cursor (h : http_result) (cursor : pyval) : pyval :=
  match h with
  | GetRaises _ => cursor
  | GetReturns r =>
      if status_code r =? 200 then
        match json r with
        | JsonValue (PDict d) =>
            match lookup "current_date" d with Some x => x | None => PNone end
        | _ => cursor
        end
      else cursor
  end.

(** What [get_api_answer] ends in, by the answer of the API. *)
Definition fetch_outcome (h : http_result) : outcome pyval :=
  match h with
  | GetRaises e =>
      if caught_by GetApiAnswerException e
      then Raise (mk_exn GetApiAnswerException None) else Raise e
  | GetReturns r =>
      if status_code r =? 200 then
        match json r with
        | JsonValue x => Ok x
        | JsonRaises e => Raise e
        end
      else Raise (mk_exn GetApiAnswerException
                         (Some ("Ошибка " ++ Str.of_Z (status_code r))))
  end.

(** What lines 158 and 159 end in, by the decoded response. *)
Definition digest_outcome (v : pyval) : outcome string :=
  match get_method v "current_date" with
  | Raise e => Raise e
  | Ok _ =>
      match check_response v with
      | Raise e => Raise e
      | Ok homework => parse_status homework
      end
  end.

(** The exception the [try] of a round ends with, by the answer of the
    API. *)
Definition round_exn (h : http_result) : option exn :=
  match fetch_outcome h with
  | Raise e => Some e
  | Ok v =>
      match digest_outcome v with
      | Raise e => Some e
      | Ok _ => None
      end
  end.

(** * Properties *)

Local Open Scope list_scope.

(** ** Strings *)

Lemma isprefix_spec (p s : string) :
  Str.isprefix p s = true <-> exists b, s = (p ++ b)%string.
Proof.
  revert s; induction p as [|a p IH]; intros s; simpl.
  - split; [intros _; now exists s | reflexivity].
  - destruct s as [|b s].
    + split; [discriminate | intros [t Ht]; discriminate].
    + rewrite andb_true_iff, Ascii.eqb_eq, IH. split.
      * intros [-> [t ->]]. now exists t.
      * intros [t Ht]. injection Ht as -> ->. split; [reflexivity | now exists t].
Qed.

Lemma isin_contains (t s : string) :
  Str.isin t s = true <-> Str.contains s t.
Proof.
  unfold Str.contains. induction s as [|c s IH].
  - simpl. rewrite orb_false_r, isprefix_spec. split.
    + intros [b Hb]. now exists ""%string, b.
    + intros [a [b H]]. destruct a; [now exists b | discriminate].
  - cbn [Str.isin]. rewrite orb_true_iff, isprefix_spec, IH. split.
    + intros [[b Hb] | [a [b Hab]]].
      * now exists ""%string, b.
      * exists (String c a), b. simpl. now rewrite Hab.
    + intros [a [b H]]. destruct a as [|c' a].
      * left. now exists b.
      * right. simpl in H. injection H as _ H. now exists a, b.
Qed.

Lemma not_isin_not_contains (t s : string) :
  Str.isin t s = false -> ~ Str.contains s t.
Proof.
  intros H C. apply isin_contains in C. congruence.
Qed.

Lemma append_assoc (a b c : string) :
  ((a ++ b) ++ c = a ++ (b ++ c))%string.
Proof. induction a as [|x a IH]; simpl; [reflexivity | now rewrite IH]. Qed.

Lemma append_nil_r (a : string) : (a ++ "" = a)%string.
Proof. induction a as [|x a IH]; simpl; [reflexivity | now rewrite IH]. Qed.

Example py_str_samples :
  py_str (PInt (-42)) = "-42" /\ py_str (PInt 0) = "0" /\
  py_str (PList [PStr "a"; PNone; PDict [("k", PBool true)]])
  = "['a', None, {'k': True}]" /\
  Str.repr "Нет ключа homeworks" = "'Нет ключа homeworks'" /\
  Str.repr ("it's " ++ Str.dq)%string = ("'it\'s " ++ Str.dq ++ "'")%string /\
  exn_str (mk_exn KeyError (Some "status")) = "'status'" /\
  exn_str (mk_exn GetApiAnswerException None) = "" /\
  Str.isin "hw1" "name hw1." = true.
Proof. repeat split; reflexivity. Qed.

Example issubclass_samples :
  issubclass KeyError Exception = true /\
  issubclass RequestsConnectionError OSError = true /\
  issubclass RequestsConnectionError ConnectionError = false /\
  issubclass RequestsConnectionError GetApiAnswerException = false /\
  issubclass KeyboardInterrupt Exception = false.
Proof. repeat split; reflexivity. Qed.

(** ** Reading traces *)

Lemma sent_from_app (site : call_site) (t u : list event) :
  sent_from site (t ++ u) = sent_from site t ++ sent_from site u.
Proof.
  induction t as [|ev t IH]; simpl; [reflexivity |].
  destruct ev; try exact IH.
  destruct site0, site; simpl; now rewrite ?IH.
Qed.

Lemma requests_app (t u : list event) :
  requests (t ++ u) = requests t ++ requests u.
Proof.
  induction t as [|ev t IH]; simpl; [reflexivity |].
  destruct ev; simpl; now rewrite ?IH.
Qed.

Lemma quiet_requests (evs : list event) :
  Forall (fun ev => ~ is_get ev) evs -> requests evs = [].
Proof.
  induction 1 as [|ev evs H _ IH]; simpl; [reflexivity |].
  destruct ev; simpl in *; try exact IH. now destruct H.
Qed.

Lemma quiet_sleeps (evs : list event) :
  Forall (fun ev => ~ is_sleep ev) evs -> sleeps evs = [].
Proof.
  induction 1 as [|ev evs H _ IH]; simpl; [reflexivity |].
  destruct ev; simpl in *; try exact IH. now destruct H.
Qed.

Lemma since_app (m m' : machine) (evs : list event) :
  trace m' = trace m ++ evs -> since m m' = evs.
Proof.
  intros H. unfold since. rewrite H.
  rewrite skipn_app, skipn_all, Nat.sub_diag. reflexivity.
Qed.

Lemma since_self (m : machine) : since m m = [].
Proof. apply since_app. now rewrite app_nil_r. Qed.

Lemma last_cons (l : list string) (d y : string) : last (y :: l) d = last l y.
Proof.
  revert d y. induction l as [|z l IH]; intros d y; [reflexivity |].
  change (last (y :: z :: l) d) with (last (z :: l) d).
  now rewrite (IH d z), (IH y z).
Qed.

Lemma no_repeat_snoc (l : list string) (d x : string) :
  no_repeat (d :: l) -> last l d <> x -> no_repeat (d :: l ++ [x]).
Proof.
  revert d. induction l as [|y l IH]; intros d H Hx.
  - simpl in *. split; [exact Hx | exact I].
  - destruct H as [Hd H]. split; [exact Hd |].
    apply IH; [exact H |]. now rewrite <- (last_cons l d y).
Qed.

Lemma last_snoc (l : list string) (d x : string) : last (l ++ [x]) d = x.
Proof. apply last_last. Qed.

(** ** Rules for [respects] *)

Section Rules.

Variable R : machine -> machine -> Prop.
Hypothesis HR : stepwise R.


Lemma respects_ret {A} (a : A) : respects R (ret a).
Proof. intros m. apply (step_refl R HR). Qed.

Lemma respects_raise {A} (e : exn) : respects R (@raise A e).
Proof. intros m. apply (step_refl R HR). Qed.

Lemma respects_lift {A} (o : outcome A) : respects R (lift o).
Proof. intros m. apply (step_refl R HR). Qed.

Lemma respects_read {A} (f : machine -> A) : respects R (read f).
Proof. intros m. apply (step_refl R HR). Qed.

Lemma respects_update (f : machine -> machine) :
  (forall m, R m (f m)) -> respects R (update f).
Proof. intros H m. apply H. Qed.

Lemma respects_bind {A B} (c : M A) (k : A -> M B) :
  respects R c -> (forall a, respects R (k a)) -> respects R (bind c k).
Proof.
  intros Hc Hk m. unfold bind. specialize (Hc m).
  destruct (c m) as [[a | e] m1]; simpl in *.
  - eapply (step_trans R HR); [exact Hc | apply Hk].
  - exact Hc.
Qed.

Lemma handler_for_respects {A} (clauses : list (exc_class * (exn -> M A)))
    (e : exn) (h : exn -> M A) :
  Forall (fun ch => forall e', respects R (snd ch e')) clauses ->
  handler_for clauses e = Some h -> respects R (h e).
Proof.
  induction 1 as [|[c h'] rest Hh _ IH]; simpl; [discriminate |].
  destruct (caught_by c e).
  - intros [= <-]. apply Hh.
  - exact IH.
Qed.

Lemma respects_try_except {A} (c : M A)
    (clauses : list (exc_class * (exn -> M A))) :
  respects R c ->
  Forall (fun ch => forall e, respects R (snd ch e)) clauses ->
  respects R (try_except c clauses).
Proof.
  intros Hc Hh m. unfold try_except. specialize (Hc m).
  destruct (c m) as [[a | e] m1]; simpl in *; [exact Hc |].
  destruct (handler_for clauses e) as [h |] eqn:E; [| exact Hc].
  eapply (step_trans R HR); [exact Hc |].
  exact (handler_for_respects clauses e h Hh E m1).
Qed.

Lemma respects_try_finally {A} (c : M A) (f : M unit) :
  respects R c -> respects R f -> respects R (try_finally c f).
Proof.
  intros Hc Hf m. unfold try_finally. specialize (Hc m).
  destruct (c m) as [r m1]; simpl in *. specialize (Hf m1).
  destruct (f m1) as [[[] | e] m2]; simpl in *;
    (eapply (step_trans R HR); [exact Hc | exact Hf]).
Qed.

Lemma respects_while_True (n : nat) (body : M unit) :
  respects R body -> respects R (while_True n body).
Proof.
  intros Hb. induction n as [|n IH]; simpl.
  - apply respects_ret.
  - apply respects_bind; [exact Hb | intros _; exact IH].
Qed.

Lemma respects_time_time : respects R time_time.
Proof. apply respects_read. Qed.

Lemma respects_response_json (r : response) : respects R (response_json r).
Proof.
  unfold response_json. destruct (json r);
    [apply respects_ret | apply respects_raise].
Qed.

Lemma respects_timestamp_of (v : pyval) : respects R (timestamp_of v).
Proof.
  unfold timestamp_of. destruct (truthy v); [apply respects_ret |].
  apply respects_bind; [apply respects_time_time | intros; apply respects_ret].
Qed.

Lemma respects_log (lg : logger_name) (lvl : level) (text : string) :
  respects R (log lg lvl text).
Proof. apply respects_update, (step_log R HR). Qed.

Lemma respects_time_sleep (secs : Z) :
  (forall m, R m (record (EvSleep secs) m)) -> respects R (time_sleep secs).
Proof.
  intros H. unfold time_sleep.
  apply respects_bind; [now apply respects_update | intros _].
  apply respects_bind; [apply respects_read | intros t].
  apply respects_update, (step_clock R HR).
Qed.

Lemma respects_requests_get (cfg : config) (params : pyval) :
  (forall m, R m (record (EvGet (authorization cfg) params) m)) ->
  respects R (requests_get cfg params).
Proof.
  intros H. unfold requests_get.
  apply respects_bind; [now apply respects_update | intros _].
  apply respects_bind; [apply respects_read | intros r].
  apply respects_bind; [apply respects_update, (step_server R HR) | intros _].
  destruct r; [apply respects_raise | apply respects_ret].
Qed.

Lemma respects_get_api_answer (cfg : config) (v : pyval) :
  (forall params m, R m (record (EvGet (authorization cfg) params) m)) ->
  respects R (get_api_answer cfg v).
Proof.
  intros Hget. unfold get_api_answer.
  apply respects_bind; [apply respects_timestamp_of | intros timestamp].
  destruct (params_guard timestamp).
  { apply respects_bind; [apply respects_log | intros _].
    apply respects_raise. }
  apply respects_bind.
  { apply respects_try_except; [now apply respects_requests_get |].
    repeat constructor. intros e. simpl.
    apply respects_bind; [apply respects_log | intros _].
    apply respects_raise. }
  intros resp. destruct (negb (status_code resp =? 200)).
  { apply respects_bind; [apply respects_log | intros _].
    apply respects_raise. }
  apply respects_try_except; [apply respects_response_json |].
  repeat constructor; intros e; simpl;
    (apply respects_bind; [apply respects_log | intros _]);
    apply respects_raise.
Qed.

Lemma respects_send_message (site : call_site) (cfg : config)
    (message : string) :
  (forall m, R m (record (EvSend site (TELEGRAM_CHAT_ID cfg) message) m)) ->
  respects R (send_message site cfg message).
Proof.
  intros H. unfold send_message, bot_send_message.
  apply respects_bind.
  - apply respects_bind; [now apply respects_update | intros _].
    apply respects_bind; [apply respects_read | intros r].
    apply respects_bind; [apply respects_update, (step_chat R HR) | intros _].
    apply respects_ret.
  - intros []; apply respects_log.
Qed.

(** The rest of a round, given that the two uses of [notify_if_changed]
    are allowed. *)
Section Round.

Variable cfg : config.
Hypothesis R_get :
  forall params m, R m (record (EvGet (authorization cfg) params) m).
Hypothesis R_notify :
  forall site message, respects R (notify_if_changed site cfg message).

Lemma respects_digest (resp : pyval) : respects R (digest cfg resp).
Proof.
  unfold digest.
  apply respects_bind; [apply respects_lift | intros date].
  apply respects_bind; [apply respects_update, (step_cursor R HR) | intros _].
  apply respects_bind; [apply respects_lift | intros homework].
  apply respects_bind; [apply respects_lift | intros message].
  apply R_notify.
Qed.

Lemma respects_report (e : exn) : respects R (report cfg e).
Proof.
  unfold report.
  apply respects_bind; [apply respects_log | intros _].
  apply R_notify.
Qed.

Lemma respects_attempt : respects R (attempt cfg).
Proof.
  apply respects_try_except.
  - unfold poll.
    apply respects_bind; [apply respects_read | intros cursor].
    apply respects_bind; [now apply respects_get_api_answer | intros resp].
    apply respects_digest.
  - repeat constructor. intros e. apply respects_report.
Qed.

End Round.

Lemma respects_iteration (cfg : config) :
  (forall params m, R m (record (EvGet (authorization cfg) params) m)) ->
  (forall site message, respects R (notify_if_changed site cfg message)) ->
  (forall m, R m (record (EvSleep RETRY_TIME) m)) ->
  respects R (iteration cfg).
Proof.
  intros Hget Hnotify Hsleep. unfold iteration.
  apply respects_try_finally; [| now apply respects_time_sleep].
  now apply respects_attempt.
Qed.

End Rules.

(** ** Runs that only add events *)

Lemma emits_refl (Q : event -> Prop) (m : machine) : emits Q m m.
Proof. exists []. now rewrite app_nil_r. Qed.

Lemma emits_trans (Q : event -> Prop) (a b c : machine) :
  emits Q a b -> emits Q b c -> emits Q a c.
Proof.
  intros [e1 [H1 Q1]] [e2 [H2 Q2]]. exists (e1 ++ e2). split.
  - now rewrite H2, H1, app_assoc.
  - apply Forall_app. now split.
Qed.

Lemma emits_same_trace (Q : event -> Prop) (m m' : machine) :
  trace m' = trace m -> emits Q m m'.
Proof. intros H. exists []. now rewrite app_nil_r. Qed.

Lemma emits_record (Q : event -> Prop) (ev : event) (m : machine) :
  Q ev -> emits Q m (record ev m).
Proof. intros H. exists [ev]. split; [reflexivity | now constructor]. Qed.

Lemma emits_since (Q : event -> Prop) (m m' : machine) :
  emits Q m m' -> trace m' = trace m ++ since m m' /\ Forall Q (since m m').
Proof.
  intros [evs [Ht Hq]]. rewrite (since_app _ _ _ Ht). now split.
Qed.

Lemma emits_stepwise (Q : event -> Prop) :
  (forall lg lvl text, Q (EvLog lg lvl text)) -> stepwise (emits Q).
Proof.
  intros Hlog. constructor.
  - apply emits_refl.
  - apply emits_trans.
  - intros v m. now apply emits_same_trace.
  - intros t m. now apply emits_same_trace.
  - intros m. now apply emits_same_trace.
  - intros m. now apply emits_same_trace.
  - intros lg lvl text m. apply emits_record, Hlog.
Qed.

Lemma emits_notify_if_changed (Q : event -> Prop) (site : call_site)
    (cfg : config) (message : string) :
  (forall lg lvl text, Q (EvLog lg lvl text)) ->
  Q (EvSend site (TELEGRAM_CHAT_ID cfg) message) ->
  respects (emits Q) (notify_if_changed site cfg message).
Proof.
  intros Hlog Hsend. pose proof (emits_stepwise Q Hlog) as HR.
  unfold notify_if_changed.
  apply (respects_bind _ HR); [apply (respects_read _ HR) |].
  intros last_sent. destruct (negb (message =? last_sent)%string).
  - apply (respects_bind _ HR).
    + apply (respects_send_message _ HR). intros m. now apply emits_record.
    + intros _. apply respects_update. intros m.
      apply emits_same_trace. now destruct site.
  - apply (respects_ret _ HR).
Qed.

(** The [try] of a round and its [except] clause add events only, and [Q]
    holds of each as soon as it holds of the lines of the log, of the
    requests and of the messages. *)
Lemma emits_attempt (Q : event -> Prop) (cfg : config) :
  (forall lg lvl text, Q (EvLog lg lvl text)) ->
  (forall params, Q (EvGet (authorization cfg) params)) ->
  (forall site text, Q (EvSend site (TELEGRAM_CHAT_ID cfg) text)) ->
  respects (emits Q) (attempt cfg).
Proof.
  intros Hlog Hget Hsend.
  apply (respects_attempt _ (emits_stepwise Q Hlog)).
  - intros params m. apply emits_record, Hget.
  - intros site message. now apply emits_notify_if_changed.
Qed.

Lemma emits_iteration (Q : event -> Prop) (cfg : config) :
  (forall lg lvl text, Q (EvLog lg lvl text)) ->
  (forall params, Q (EvGet (authorization cfg) params)) ->
  (forall site text, Q (EvSend site (TELEGRAM_CHAT_ID cfg) text)) ->
  Q (EvSleep RETRY_TIME) ->
  respects (emits Q) (iteration cfg).
Proof.
  intros Hlog Hget Hsend Hsleep.
  apply (respects_iteration _ (emits_stepwise Q Hlog)).
  - intros params m. apply emits_record, Hget.
  - intros site message. now apply emits_notify_if_changed.
  - intros m. now apply emits_record.
Qed.

(** The sleep of the [finally] clause is the last thing a round does. *)
Lemma iteration_trace (cfg : config) (m : machine) :
  trace (snd (iteration cfg m))
  = trace (snd (attempt cfg m)) ++ [EvSleep RETRY_TIME].
Proof.
  unfold iteration, try_finally.
  destruct (attempt cfg m) as [r m1]. reflexivity.
Qed.

(** C8: every round of the poll loop ends with a sleep of exactly 600
    seconds, whatever the round did before: whether [iteration] returns or
    lets an exception escape, the events it added to the trace are events
    that are not sleeps, followed by one [time.sleep(600)]. *)
Theorem iteration_ends_with_sleep (cfg : config) (m : machine) :
  RETRY_TIME = 600 /\
  exists evs,
    trace (snd (iteration cfg m)) = trace m ++ evs ++ [EvSleep 600] /\
    sleeps evs = [].
Proof.
  split; [reflexivity |].
  assert (H : emits (fun ev => ~ is_sleep ev) m (snd (attempt cfg m))).
  { apply emits_attempt; simpl; auto. }
  destruct H as [evs [Ht Hq]]. exists evs. split.
  - rewrite iteration_trace, Ht, <- app_assoc. reflexivity.
  - now apply quiet_sleeps.
Qed.

(** ** The two uses of [notify_if_changed] *)

Lemma notify_unchanged (site : call_site) (cfg : config) (m : machine) :
  notify_if_changed site cfg (slot site m) m = (Ok tt, m).
Proof.
  unfold notify_if_changed, bind, read. now rewrite String.eqb_refl.
Qed.

Lemma notify_changed (site : call_site) (cfg : config) (message : string)
    (m : machine) :
  slot site m <> message ->
  exists text m',
    notify_if_changed site cfg message m = (Ok tt, m') /\
    trace m' = trace m ++ [ EvSend site (TELEGRAM_CHAT_ID cfg) message;
                            EvLog ModuleLogger INFO text ] /\
    slot site m' = message /\
    (forall other, other <> site -> slot other m' = slot other m) /\
    current_timestamp m' = current_timestamp m /\ clock m' = clock m.
Proof.
  intros Hne. unfold notify_if_changed, bind, read.
  destruct (String.eqb_spec message (slot site m)) as [E | _];
    [now destruct Hne |].
  cbn. unfold send_message, bot_send_message, bind, update, read, ret, log.
  cbn. destruct (chat m 0%nat); cbn;
    eexists; eexists; (split; [reflexivity |]);
    (split; [destruct site; cbn; now rewrite <- app_assoc |]);
    (split; [now destruct site |]);
    (split; [| now destruct site]);
    intros other Ho; destruct other, site; try reflexivity; now destruct Ho.
Qed.

(** ** Runs that keep the chat tidy *)

Lemma tidy_start (site : call_site) (m : machine) : tidy site m m.
Proof.
  unfold tidy. rewrite since_self. simpl. repeat split.
  exists []. now rewrite app_nil_r.
Qed.

Lemma tidy_same (site : call_site) (m m' : machine) :
  trace m' = trace m -> slot site m' = slot site m -> keeps_tidy site m m'.
Proof.
  intros Ht Hs m0 H. unfold tidy, since in *. now rewrite Ht, Hs.
Qed.

Lemma tidy_quiet (site : call_site) (m m' : machine) (evs : list event) :
  trace m' = trace m ++ evs -> sent_from site evs = [] ->
  slot site m' = slot site m -> keeps_tidy site m m'.
Proof.
  intros Ht Hq Hs m0 [[old Hold] [Hn Hl]].
  assert (Hnew : trace m' = trace m0 ++ old ++ evs)
    by now rewrite Ht, Hold, app_assoc.
  rewrite (since_app _ _ _ Hold) in Hn, Hl.
  unfold tidy. rewrite (since_app _ _ _ Hnew), sent_from_app, Hq, app_nil_r, Hs.
  split; [now exists (old ++ evs) | now split].
Qed.

Lemma tidy_sent (site : call_site) (m m' : machine) (evs : list event)
    (text : string) :
  trace m' = trace m ++ evs -> sent_from site evs = [text] ->
  slot site m <> text -> slot site m' = text -> keeps_tidy site m m'.
Proof.
  intros Ht Hq Hne Hs m0 [[old Hold] [Hn Hl]].
  assert (Hnew : trace m' = trace m0 ++ old ++ evs)
    by now rewrite Ht, Hold, app_assoc.
  rewrite (since_app _ _ _ Hold) in Hn, Hl.
  unfold tidy. rewrite (since_app _ _ _ Hnew), sent_from_app, Hq, Hs.
  split; [now exists (old ++ evs) |]. split.
  - apply no_repeat_snoc; [exact Hn | now rewrite Hl].
  - apply last_snoc.
Qed.

Lemma tidy_stepwise (site : call_site) : stepwise (keeps_tidy site).
Proof.
  constructor.
  - intros m m0 H. exact H.
  - intros a b c Hab Hbc m0 H. apply Hbc, Hab, H.
  - intros v m. apply tidy_same; [reflexivity | now destruct site].
  - intros t m. apply tidy_same; [reflexivity | now destruct site].
  - intros m. apply tidy_same; [reflexivity | now destruct site].
  - intros m. apply tidy_same; [reflexivity | now destruct site].
  - intros lg lvl text m.
    apply tidy_quiet with (evs := [EvLog lg lvl text]);
      [reflexivity | reflexivity | now destruct site].
Qed.

Lemma tidy_notify_if_changed (site at_site : call_site) (cfg : config)
    (message : string) :
  respects (keeps_tidy site) (notify_if_changed at_site cfg message).
Proof.
  intros m. destruct (String.eqb_spec (slot at_site m) message) as [E | Hne].
  - subst message. rewrite notify_unchanged. simpl. now intros m0 H.
  - destruct (notify_changed at_site cfg message m Hne)
      as [text [m' [Hrun [Ht [Hs [Ho _]]]]]].
    rewrite Hrun. simpl.
    destruct site, at_site.
    + eapply tidy_sent; [exact Ht | reflexivity | exact Hne | exact Hs].
    + eapply tidy_quiet; [exact Ht | reflexivity | now apply Ho].
    + eapply tidy_quiet; [exact Ht | reflexivity | now apply Ho].
    + eapply tidy_sent; [exact Ht | reflexivity | exact Hne | exact Hs].
Qed.

Lemma tidy_iteration (site : call_site) (cfg : config) :
  respects (keeps_tidy site) (iteration cfg).
Proof.
  apply (respects_iteration _ (tidy_stepwise site)).
  - intros params m.
    apply tidy_quiet with (evs := [EvGet (authorization cfg) params]);
      [reflexivity | reflexivity | now destruct site].
  - intros at_site message. apply tidy_notify_if_changed.
  - intros m.
    apply tidy_quiet with (evs := [EvSleep RETRY_TIME]);
      [reflexivity | reflexivity | now destruct site].
Qed.

(** ** The start of [main] *)

Lemma main_run (cfg : config) (n : nat) (m : machine) :
  main cfg n m =
  match bot_init m with
  | Some e => (Raise e, record (EvBot (TELEGRAM_TOKEN cfg)) m)
  | None =>
      if check_tokens cfg then while_True n (iteration cfg) (loop_entry cfg m)
      else (Raise (mk_exn Exception (Some fatal_text)),
            record (EvLog ModuleLogger CRITICAL fatal_text) (loop_entry cfg m))
  end.
Proof.
  unfold main, telegram_Bot, bind, update, read, time_time, log, raise.
  cbn -[check_tokens iteration while_True].
  destruct (bot_init m); [reflexivity |].
  destruct (check_tokens cfg); reflexivity.
Qed.

Lemma loop_entry_trace (cfg : config) (m : machine) :
  trace (loop_entry cfg m) = trace m ++ [EvBot (TELEGRAM_TOKEN cfg)].
Proof. reflexivity. Qed.

(** In a run of the loop from [m], the texts sent from a call site, after
    the text [m] remembers for it, never repeat. *)
Lemma loop_no_repeat (site : call_site) (cfg : config) (n : nat) (m : machine) :
  no_repeat (slot site m
               :: sent_from site (since m (snd (while_True n (iteration cfg) m)))).
Proof.
  pose proof (respects_while_True _ (tidy_stepwise site) n _
                (tidy_iteration site cfg) m m (tidy_start site m)) as H.
  apply H.
Qed.

Lemma no_repeat_tail (x : string) (l : list string) :
  no_repeat (x :: l) -> no_repeat l.
Proof. destruct l; [easy | now intros [_ H]]. Qed.

Lemma main_no_repeat (site : call_site) (cfg : config) (n : nat) (m : machine) :
  no_repeat (sent_from site (since m (snd (main cfg n m)))).
Proof.
  rewrite main_run. destruct (bot_init m) as [e |].
  - rewrite (since_app _ _ [EvBot (TELEGRAM_TOKEN cfg)]) by reflexivity.
    exact I.
  - destruct (check_tokens cfg).
    + pose proof (respects_while_True _ (tidy_stepwise site) n _
                    (tidy_iteration site cfg) (loop_entry cfg m) _
                    (tidy_start site _)) as [[evs Ht] [Hn _]].
      rewrite (since_app _ _ _ Ht) in Hn.
      rewrite loop_entry_trace, <- app_assoc in Ht.
      rewrite (since_app _ _ _ Ht), sent_from_app. simpl.
      now apply no_repeat_tail in Hn.
    + rewrite (since_app _ _ [EvBot (TELEGRAM_TOKEN cfg);
                               EvLog ModuleLogger CRITICAL fatal_text]).
      * exact I.
      * cbn. now rewrite <- app_assoc.
Qed.

(** C3: notify-if-changed is idempotent and the orchestrator never repeats
    itself.  From a machine whose remembered text for a call site differs
    from [message], running the notify-if-changed lines of that site twice
    with [message] sends exactly one text to the chat, [message]; and in
    every run of [main], of any number of rounds and against any API and any
    bot, no status message is sent twice in a row and no error message is
    sent twice in a row. *)
Theorem notify_twice_sends_once :
  (forall site cfg message m,
      slot site m <> message ->
      sent (since m (snd ((notify_if_changed site cfg message ;;
                           notify_if_changed site cfg message) m)))
      = [message]) /\
  (forall cfg n m,
      no_repeat (sent_from StatusSite (since m (snd (main cfg n m)))) /\
      no_repeat (sent_from ErrorSite (since m (snd (main cfg n m))))).
Proof.
  split.
  - intros site cfg message m Hne.
    destruct (notify_changed site cfg message m Hne)
      as [text [m' [Hrun [Ht [Hs _]]]]].
    pose proof (notify_unchanged site cfg m') as Hagain. rewrite Hs in Hagain.
    unfold bind. rewrite Hrun, Hagain. simpl.
    now rewrite (since_app _ _ _ Ht).
  - intros cfg n m. split; apply main_no_repeat.
Qed.

Lemma notify_twice_sends_once_witness :
  slot StatusSite (Scenario.started (Scenario.ok_200 PNone)) <> "hw1 approved" /\
  sent (since (Scenario.started (Scenario.ok_200 PNone))
          (snd ((notify_if_changed StatusSite Scenario.cfg "hw1 approved" ;;
                 notify_if_changed StatusSite Scenario.cfg "hw1 approved")
                  (Scenario.started (Scenario.ok_200 PNone)))))
  = ["hw1 approved"].
Proof.
  split; [discriminate |].
  apply (proj1 notify_twice_sends_once). discriminate.
Defined.

(** ** The fetch *)

Lemma py_or_not_None (v w : pyval) : is_None w = false -> is_None (py_or v w) = false.
Proof.
  intros H. unfold py_or. destruct (truthy v) eqn:E; [| exact H].
  now destruct v.
Qed.

Lemma timestamp_of_run (v : pyval) (m : machine) :
  timestamp_of v m = (Ok (py_or v (PInt (clock m))), m).
Proof. unfold timestamp_of, py_or. now destruct (truthy v). Qed.

Lemma params_guard_false (v : pyval) (t : Z) :
  params_guard (py_or v (PInt t)) = false.
Proof.
  unfold params_guard. now rewrite py_or_not_None.
Qed.

(** What [get_api_answer] does, case by case: it always makes the request,
    and the answer of the API decides the rest. *)
Lemma get_api_answer_run (cfg : config) (v : pyval) (m : machine) :
  let params := params_of (py_or v (PInt (clock m))) in
  let m1 := next_server (record (EvGet (authorization cfg) params) m) in
  get_api_answer cfg v m =
  match server m O with
  | GetRaises e =>
      if caught_by GetApiAnswerException e then
        (Raise (mk_exn GetApiAnswerException None),
         record (EvLog RootLogger ERROR
                       ("Ошибка при запросе к API: " ++ exn_str e)%string) m1)
      else (Raise e, m1)
  | GetReturns r =>
      if status_code r =? 200 then
        match json r with
        | JsonValue x => (Ok x, m1)
        | JsonRaises e =>
            if caught_by JSONDecodeError e then
              (Raise e,
               record (EvLog ModuleLogger ERROR
                             "Ошибка парсинга ответа из формата json") m1)
            else if caught_by ConnectionError e then
              (Raise e, record (EvLog ModuleLogger ERROR "Ошибка соединения") m1)
            else (Raise e, m1)
        end
      else
        (Raise (mk_exn GetApiAnswerException
                       (Some ("Ошибка " ++ Str.of_Z (status_code r))%string)),
         record (EvLog RootLogger ERROR
                       ("Ошибка " ++ Str.of_Z (status_code r))%string) m1)
  end.
Proof.
  intros params m1. unfold get_api_answer, bind at 1.
  rewrite timestamp_of_run, params_guard_false.
  unfold bind at 1, try_except at 1, requests_get, bind, update, read, ret, raise.
  cbn -[caught_by exn_str Str.of_Z Z.eqb]. fold params. fold m1.
  destruct (server m O) as [e | r].
  - cbn -[caught_by exn_str]. destruct (caught_by GetApiAnswerException e); reflexivity.
  - cbn -[caught_by exn_str Str.of_Z Z.eqb].
    destruct (status_code r =? 200); cbn -[caught_by exn_str Str.of_Z]; [| reflexivity].
    unfold try_except, response_json. destruct (json r) as [x | e]; [reflexivity |].
    cbn -[caught_by]. destruct (caught_by JSONDecodeError e); [reflexivity |].
    destruct (caught_by ConnectionError e); reflexivity.
Qed.

Lemma get_api_answer_trace (cfg : config) (v : pyval) (m : machine) :
  exists logs,
    trace (snd (get_api_answer cfg v m))
    = trace m ++ EvGet (authorization cfg)
                       (params_of (py_or v (PInt (clock m)))) :: logs /\
    Forall (fun ev => ~ is_get ev /\
                      ev <> EvLog ModuleLogger ERROR parameters_error_text) logs.
Proof.
  rewrite get_api_answer_run.
  assert (Hroot : forall text,
             ~ is_get (EvLog RootLogger ERROR text) /\
             EvLog RootLogger ERROR text
             <> EvLog ModuleLogger ERROR parameters_error_text)
    by (intros text; split; [intros [] | discriminate]).
  destruct (server m O) as [e | r].
  - destruct (caught_by GetApiAnswerException e).
    + eexists. simpl. rewrite <- app_assoc. split; [reflexivity |].
      constructor; [apply Hroot | constructor].
    + exists []. now split.
  - destruct (status_code r =? 200).
    + destruct (json r) as [x | e]; [exists []; now split |].
      destruct (caught_by JSONDecodeError e);
        [| destruct (caught_by ConnectionError e)].
      * eexists. simpl. rewrite <- app_assoc. split; [reflexivity |].
        constructor; [| constructor].
        split; [intros [] | unfold parameters_error_text; discriminate].
      * eexists. simpl. rewrite <- app_assoc. split; [reflexivity |].
        constructor; [| constructor].
        split; [intros [] | unfold parameters_error_text; discriminate].
      * exists []. now split.
    + eexists. simpl. rewrite <- app_assoc. split; [reflexivity |].
      constructor; [apply Hroot | constructor].
Qed.

(** C9: the parameters-error branch of [get_api_answer] is unreachable.
    For every cursor and every machine, [timestamp] (line 67) is not [None],
    [params] (line 68) is not [None], the guard of line 69 is false, and so
    [get_api_answer] always goes on to make its request: the first event it
    adds is the [requests.get], and the line the branch would log is not
    among the events it adds. *)
Theorem parameters_error_unreachable (cfg : config) (cursor : pyval)
    (m : machine) :
  let timestamp := py_or cursor (PInt (clock m)) in
  timestamp_of cursor m = (Ok timestamp, m) /\
  is_None timestamp = false /\
  is_None (params_of timestamp) = false /\
  params_guard timestamp = false /\
  exists logs,
    since m (snd (get_api_answer cfg cursor m))
    = EvGet (authorization cfg) (params_of timestamp) :: logs /\
    ~ In (EvLog ModuleLogger ERROR parameters_error_text) logs.
Proof.
  intros timestamp. split; [apply timestamp_of_run |].
  split; [now apply py_or_not_None |].
  split; [reflexivity |].
  split; [apply params_guard_false |].
  destruct (get_api_answer_trace cfg cursor m) as [logs [Ht Hq]].
  exists logs. split; [exact (since_app _ _ _ Ht) |].
  intros Hin. rewrite Forall_forall in Hq.
  now destruct (Hq _ Hin) as [_ Hne].
Qed.

Lemma transport_failure_not_caught (e : exn) :
  transport_failure e -> caught_by GetApiAnswerException e = false.
Proof.
  unfold transport_failure, caught_by. now destruct (exn_class e).
Qed.

(** C6 (the code does otherwise): when [requests.get] raises a transport
    failure, the [except GetApiAnswerException] clause of line 77 does not
    catch it.  [get_api_answer] lets the very exception of [requests] escape,
    which is not a [GetApiAnswerException], and writes no line to the log:
    the request is the only event. *)
Theorem transport_failure_escapes (cfg : config) (cursor : pyval)
    (m : machine) (e : exn) :
  server m O = GetRaises e ->
  transport_failure e ->
  fst (get_api_answer cfg cursor m) = Raise e /\
  caught_by GetApiAnswerException e = false /\
  since m (snd (get_api_answer cfg cursor m))
  = [EvGet (authorization cfg) (params_of (py_or cursor (PInt (clock m))))].
Proof.
  intros Hs He. apply transport_failure_not_caught in He.
  rewrite get_api_answer_run, Hs, He. repeat split.
  now apply since_app.
Qed.

Lemma transport_failure_escapes_witness :
  fst (get_api_answer Scenario.cfg (PInt 7)
         (Scenario.started (GetRaises Scenario.connection_failure)))
  = Raise Scenario.connection_failure /\
  exn_class Scenario.connection_failure <> GetApiAnswerException.
Proof.
  split; [| discriminate].
  apply (transport_failure_escapes Scenario.cfg (PInt 7)
           (Scenario.started (GetRaises Scenario.connection_failure))
           Scenario.connection_failure); reflexivity.
Defined.

(** ** One round, step by step *)

Lemma notify_frame (site : call_site) (cfg : config) (message : string)
    (m : machine) :
  exists m',
    notify_if_changed site cfg message m = (Ok tt, m') /\
    current_timestamp m' = current_timestamp m /\ clock m' = clock m.
Proof.
  destruct (String.eqb_spec (slot site m) message) as [E | Hne].
  - subst message. exists m. now rewrite notify_unchanged.
  - destruct (notify_changed site cfg message m Hne)
      as [text [m' [Hrun [_ [_ [_ [Hc Ht]]]]]]].
    now exists m'.
Qed.

Lemma attempt_run (cfg : config) (m : machine) :
  attempt cfg m =
  match get_api_answer cfg (current_timestamp m) m with
  | (Ok v, m1) => try_except (digest cfg v) [ (Exception, report cfg) ] m1
  | (Raise e, m1) =>
      if caught_by Exception e then report cfg e m1 else (Raise e, m1)
  end.
Proof.
  unfold attempt, try_except, poll, bind, read.
  destruct (get_api_answer cfg (current_timestamp m) m) as [[v | e] m1];
    [reflexivity |].
  simpl handler_for. now destruct (caught_by Exception e).
Qed.

Lemma digest_run (cfg : config) (v : pyval) (m : machine) :
  digest cfg v m =
  match get_method v "current_date" with
  | Raise e => (Raise e, m)
  | Ok date =>
      match check_response v with
      | Raise e => (Raise e, set_current_timestamp date m)
      | Ok homework =>
          match parse_status homework with
          | Raise e => (Raise e, set_current_timestamp date m)
          | Ok message =>
              notify_if_changed StatusSite cfg message
                                (set_current_timestamp date m)
          end
      end
  end.
Proof.
  unfold digest, bind, lift, update.
  destruct (get_method v "current_date"); [| reflexivity].
  destruct (check_response v) as [homework |]; [| reflexivity].
  destruct (parse_status homework); reflexivity.
Qed.

Lemma report_run (cfg : config) (e : exn) (m : machine) :
  report cfg e m =
  notify_if_changed ErrorSite cfg (exn_str e)
                    (record (EvLog ModuleLogger ERROR (exn_str e)) m).
Proof. reflexivity. Qed.

Lemma iteration_run (cfg : config) (m : machine) :
  iteration cfg m =
  (fst (attempt cfg m),
   set_clock (clock (snd (attempt cfg m)) + RETRY_TIME)
             (record (EvSleep RETRY_TIME) (snd (attempt cfg m)))).
Proof.
  unfold iteration, try_finally. now destruct (attempt cfg m).
Qed.

(** The part of a round after the fetch makes no request. *)
Lemma after_fetch_no_request (cfg : config) :
  (forall v, respects (emits (fun ev => ~ is_get ev))
               (try_except (digest cfg v) [ (Exception, report cfg) ])) /\
  (forall e, respects (emits (fun ev => ~ is_get ev)) (report cfg e)).
Proof.
  assert (HR : stepwise (emits (fun ev => ~ is_get ev)))
    by (apply emits_stepwise; intros lg lvl text []).
  assert (Hn : forall site message,
             respects (emits (fun ev => ~ is_get ev))
                      (notify_if_changed site cfg message)).
  { intros site message.
    apply emits_notify_if_changed; [intros lg lvl text [] | intros []]. }
  split.
  - intros v. apply (respects_try_except _ HR).
    + now apply (respects_digest _ HR).
    + repeat constructor. intros e. now apply (respects_report _ HR).
  - intros e. now apply (respects_report _ HR).
Qed.

(** Every round makes exactly one request, whose [from_date] is the cursor
    or, when the cursor is false, the time of the request. *)
Lemma iteration_requests (cfg : config) (m : machine) :
  requests (since m (snd (iteration cfg m)))
  = [params_of (py_or (current_timestamp m) (PInt (clock m)))].
Proof.
  destruct (after_fetch_no_request cfg) as [Hd Hr].
  destruct (get_api_answer_trace cfg (current_timestamp m) m)
    as [logs [Ht Hq]].
  assert (Hlogs : requests logs = []).
  { apply quiet_requests. eapply Forall_impl; [| exact Hq]. now intros ev []. }
  assert (H : exists evs,
             trace (snd (attempt cfg m))
             = trace (snd (get_api_answer cfg (current_timestamp m) m)) ++ evs
             /\ Forall (fun ev => ~ is_get ev) evs).
  { rewrite attempt_run.
    destruct (get_api_answer cfg (current_timestamp m) m) as [[v | e] m1].
    - apply Hd.
    - destruct (caught_by Exception e); [apply Hr | apply emits_refl]. }
  destruct H as [evs [He Hqe]].
  rewrite iteration_run. simpl snd.
  rewrite (since_app _ _ ((EvGet (authorization cfg)
                             (params_of (py_or (current_timestamp m)
                                               (PInt (clock m)))) :: logs)
                            ++ evs ++ [EvSleep RETRY_TIME])).
  - simpl. rewrite !requests_app, Hlogs, (quiet_requests _ Hqe). reflexivity.
  - cbn [trace set_clock record]. rewrite He, Ht, <- !app_assoc. reflexivity.
Qed.

(** A response without [current_date] leaves [None] in the cursor, whatever
    the rest of the round does. *)
Lemma digest_without_date (cfg : config) (d : list (string * pyval))
    (m : machine) :
  lookup "current_date" d = None ->
  current_timestamp
    (snd (try_except (digest cfg (PDict d)) [ (Exception, report cfg) ] m))
  = PNone.
Proof.
  intros Hd. unfold try_except. rewrite digest_run. simpl get_method. rewrite Hd.
  assert (Hraise : forall e,
             current_timestamp
               (snd (match handler_for [ (Exception, report cfg) ] e with
                     | Some h => h e (set_current_timestamp PNone m)
                     | None => (Raise e, set_current_timestamp PNone m)
                     end)) = PNone).
  { intros e. simpl handler_for. destruct (caught_by Exception e); [| reflexivity].
    rewrite report_run.
    destruct (notify_frame ErrorSite cfg (exn_str e)
                (record (EvLog ModuleLogger ERROR (exn_str e))
                        (set_current_timestamp PNone m)))
      as [m' [Hrun [Hc _]]].
    rewrite Hrun. exact Hc. }
  destruct (check_response (PDict d)) as [homework | e]; [| apply Hraise].
  destruct (parse_status homework) as [message | e]; [| apply Hraise].
  destruct (notify_frame StatusSite cfg message (set_current_timestamp PNone m))
    as [m' [Hrun [Hc _]]].
  rewrite Hrun. exact Hc.
Qed.

(** C10 as claimed fails: a successful fetch whose decoded response is the
    empty list has no [current_date], but [response.get] of line 158 raises
    [AttributeError] before anything is assigned.  The cursor keeps its value,
    5, and the request of the next round, made at time 605, carries it. *)
Lemma list_response_does_not_reset_cursor :
  let m := loop_entry Scenario.cfg
             (Scenario.started (Scenario.ok_200 (PList []))) in
  let m1 := snd (iteration Scenario.cfg m) in
  fst (get_api_answer Scenario.cfg (current_timestamp m) m) = Ok (PList []) /\
  current_timestamp m = PInt 5 /\
  current_timestamp m1 = PInt 5 /\
  current_timestamp m1 <> PNone /\
  clock m1 = 605 /\
  requests (since m1 (snd (iteration Scenario.cfg m1)))
  = [PDict [("from_date", PInt 5)]].
Proof.
  cbv zeta. repeat split; try (vm_compute; reflexivity).
  vm_compute. discriminate.
Qed.

(** C10, amended: after a successful fetch whose decoded response is a
    mapping without [current_date], the round leaves [None] in the poll
    cursor, and the request of the next round does not carry the former
    cursor: its only request has the time of that request as [from_date]. *)
Theorem missing_current_date_resets_cursor (cfg : config) (m : machine)
    (d : list (string * pyval)) :
  server m O = GetReturns (mk_response 200 (JsonValue (PDict d))) ->
  lookup "current_date" d = None ->
  let m1 := snd (iteration cfg m) in
  current_timestamp m1 = PNone /\
  requests (since m1 (snd (iteration cfg m1)))
  = [PDict [("from_date", PInt (clock m1))]].
Proof.
  intros Hs Hd m1.
  assert (Hc : current_timestamp m1 = PNone).
  { unfold m1. rewrite iteration_run. cbn [snd current_timestamp set_clock record].
    rewrite attempt_run, get_api_answer_run, Hs. cbn [status_code json Z.eqb].
    simpl (200 =? 200). cbv iota. now apply digest_without_date. }
  split; [exact Hc |].
  rewrite iteration_requests, Hc. reflexivity.
Qed.

Lemma missing_current_date_resets_cursor_witness :
  let m := Scenario.started
             (Scenario.ok_200 (PDict [("homeworks", PList [])])) in
  let m1 := snd (iteration Scenario.cfg m) in
  lookup "current_date" [("homeworks", PList [])] = None /\
  current_timestamp m1 = PNone /\
  requests (since m1 (snd (iteration Scenario.cfg m1)))
  = [PDict [("from_date", PInt (clock m1))]].
Proof.
  intros m m1. split; [reflexivity |].
  apply (missing_current_date_resets_cursor Scenario.cfg m
           [("homeworks", PList [])]); reflexivity.
Defined.

(** ** The configuration check *)

Lemma truthy_env_value (v : option string) :
  truthy (env_value v) = true <-> nonempty v.
Proof.
  unfold nonempty. destruct v as [s |]; simpl.
  - destruct (String.eqb_spec s ""); simpl; split.
    + discriminate.
    + intros [t [[= <-] Ht]]. now destruct Ht.
    + intros _. now exists s.
    + reflexivity.
  - split; [discriminate | now intros [t [Ht _]]].
Qed.

Lemma check_tokens_true (cfg : config) :
  check_tokens cfg = true <-> all_nonempty cfg.
Proof.
  unfold check_tokens, all_nonempty. simpl.
  rewrite !andb_true_iff, !truthy_env_value. tauto.
Qed.

Lemma missing_not_nonempty (v : option string) : missing v -> ~ nonempty v.
Proof.
  intros [-> | ->] [s [E Hs]]; [discriminate |].
  injection E as <-. now destruct Hs.
Qed.

Lemma check_tokens_false (cfg : config) :
  missing (PRACTICUM_TOKEN cfg) \/ missing (TELEGRAM_TOKEN cfg) \/
  missing (TELEGRAM_CHAT_ID cfg) ->
  check_tokens cfg = false.
Proof.
  intros H. destruct (check_tokens cfg) eqn:E; [| reflexivity].
  apply check_tokens_true in E. destruct E as [H1 [H2 H3]].
  destruct H as [H | [H | H]]; apply missing_not_nonempty in H; contradiction.
Qed.

(** Without its tokens [main] ends in an exception and has neither made a
    request nor sent a message nor slept. *)
Lemma main_aborts (cfg : config) (n : nat) (m : machine) :
  check_tokens cfg = false ->
  (exists e, fst (main cfg n m) = Raise e) /\
  requests (since m (snd (main cfg n m))) = [] /\
  sent (since m (snd (main cfg n m))) = [] /\
  sleeps (since m (snd (main cfg n m))) = [].
Proof.
  intros H. rewrite main_run, H. destruct (bot_init m) as [e |].
  - rewrite (since_app _ _ [EvBot (TELEGRAM_TOKEN cfg)]) by reflexivity.
    split; [now exists e | now repeat split].
  - rewrite (since_app _ _ [EvBot (TELEGRAM_TOKEN cfg);
                             EvLog ModuleLogger CRITICAL fatal_text]).
    + split; [now eexists | now repeat split].
    + cbn. now rewrite <- app_assoc.
Qed.

Lemma py_or_same (v : pyval) : py_or v v = v.
Proof. unfold py_or. now destruct (truthy v). Qed.

(** With its tokens and its bot, [main] enters the loop: the first request
    asks for the homework since the start. *)
Lemma main_enters_loop (cfg : config) (n : nat) (m : machine) :
  check_tokens cfg = true -> bot_init m = None ->
  exists rest,
    requests (since m (snd (main cfg (S n) m)))
    = params_of (PInt (clock m)) :: rest.
Proof.
  intros H Hb. rewrite main_run, H, Hb.
  set (m0 := loop_entry cfg m).
  assert (Hall : forall c : M unit,
             respects (emits (fun _ => True)) c ->
             forall a, trace (snd (c a)) = trace a ++ since a (snd (c a))).
  { intros c Hc a. now destruct (emits_since _ _ _ (Hc a)). }
  assert (Hit : respects (emits (fun _ => True)) (iteration cfg))
    by now apply emits_iteration.
  pose proof (iteration_requests cfg m0) as Hreq.
  change (current_timestamp m0) with (PInt (clock m)) in Hreq.
  change (clock m0) with (clock m) in Hreq. rewrite py_or_same in Hreq.
  pose proof (Hall _ Hit m0) as Ht1.
  cbn [while_True]. unfold bind.
  destruct (iteration cfg m0) as [[[] | e] m1]; simpl snd in *.
  - pose proof (Hall _ (respects_while_True _ (emits_stepwise _
                   (fun _ _ _ => I)) n _ Hit) m1) as Ht2.
    rewrite Ht1 in Ht2. subst m0.
    rewrite loop_entry_trace, <- !app_assoc in Ht2.
    rewrite (since_app _ _ _ Ht2). simpl.
    rewrite requests_app, Hreq. simpl. now eexists.
  - subst m0. rewrite loop_entry_trace, <- app_assoc in Ht1.
    rewrite (since_app _ _ _ Ht1). simpl. rewrite Hreq. now eexists.
Qed.

(** C7 as claimed fails, in two ways.  With all three variables set and the
    API token set to the empty string, [check_tokens] returns [False] and
    [main] stops before its loop.  With all three variables set and not
    empty, and a bot token that [telegram.Bot] refuses at line 147, [main]
    ends in the exception of the constructor: [check_tokens] would return
    [True], but the loop is not entered and no request is made. *)
Lemma present_tokens_do_not_ensure_the_loop :
  (all_present Scenario.cfg_empty_token /\
   check_tokens Scenario.cfg_empty_token = false /\
   forall n m,
     (exists e, fst (main Scenario.cfg_empty_token n m) = Raise e) /\
     requests (since m (snd (main Scenario.cfg_empty_token n m))) = []) /\
  (all_present Scenario.cfg_bad_bot_token /\
   all_nonempty Scenario.cfg_bad_bot_token /\
   check_tokens Scenario.cfg_bad_bot_token = true /\
   forall n,
     fst (main Scenario.cfg_bad_bot_token n Scenario.started_without_bot)
     = Raise Scenario.invalid_token /\
     since Scenario.started_without_bot
           (snd (main Scenario.cfg_bad_bot_token n Scenario.started_without_bot))
     = [EvBot (Some "bot token")]).
Proof.
  split.
  - split; [repeat split; discriminate |].
    split; [reflexivity |].
    intros n m.
    destruct (main_aborts Scenario.cfg_empty_token n m eq_refl) as [He [Hr _]].
    now split.
  - split; [repeat split; discriminate |].
    split; [repeat split; eexists; (split; [reflexivity | discriminate]) |].
    split; [reflexivity |].
    intros n. rewrite main_run. split; [reflexivity |].
    now apply since_app.
Qed.

(** C7, amended: if one of the three configuration values is not set or is
    the empty string, [check_tokens] returns [False] and [main] ends in an
    exception without having made a request, sent a message or slept; if all
    three are set and not empty, [check_tokens] returns [True] and, once the
    bot is built, the loop is entered: its first request is made. *)
Theorem startup_gate (cfg : config) (n : nat) (m : machine) :
  (missing (PRACTICUM_TOKEN cfg) \/ missing (TELEGRAM_TOKEN cfg) \/
   missing (TELEGRAM_CHAT_ID cfg) ->
   check_tokens cfg = false /\
   (exists e, fst (main cfg n m) = Raise e) /\
   requests (since m (snd (main cfg n m))) = [] /\
   sent (since m (snd (main cfg n m))) = [] /\
   sleeps (since m (snd (main cfg n m))) = []) /\
  (all_nonempty cfg ->
   check_tokens cfg = true /\
   (bot_init m = None ->
    exists rest,
      requests (since m (snd (main cfg (S n) m)))
      = params_of (PInt (clock m)) :: rest)).
Proof.
  split.
  - intros H. apply check_tokens_false in H. split; [exact H |].
    now apply main_aborts.
  - intros H. apply check_tokens_true in H. split; [exact H |].
    intros Hb. now apply main_enters_loop.
Qed.

Lemma startup_gate_witness :
  (check_tokens (mk_config None (Some "123:bot") (Some "42")) = false /\
   requests (since (Scenario.started (Scenario.ok_200 PNone))
               (snd (main (mk_config None (Some "123:bot") (Some "42")) 3
                          (Scenario.started (Scenario.ok_200 PNone))))) = []) /\
  (check_tokens Scenario.cfg = true /\
   exists rest,
     requests (since (Scenario.started (Scenario.ok_200 PNone))
                 (snd (main Scenario.cfg 4
                            (Scenario.started (Scenario.ok_200 PNone)))))
     = params_of (PInt 5) :: rest).
Proof.
  split.
  - destruct (proj1 (startup_gate (mk_config None (Some "123:bot") (Some "42")) 3
                       (Scenario.started (Scenario.ok_200 PNone))))
      as [H [_ [Hr _]]]; [left; now left | now split].
  - destruct (proj2 (startup_gate Scenario.cfg 3
                       (Scenario.started (Scenario.ok_200 PNone))))
      as [H Hloop].
    + repeat split; eexists; (split; [reflexivity | discriminate]).
    + split; [exact H | now apply Hloop].
Defined.

(** ** The validator *)

(** C2 (the code does otherwise): for a mapping without the key
    [homeworks], [response.get('homeworks')] is [None] and the test of line
    106, ['homeworks' in homework], raises the [TypeError] of the interpreter
    before the [KeyError] of line 107 can be raised: [check_response] never
    signals the missing field by a [KeyError]. *)
Theorem check_response_without_homeworks (d : list (string * pyval)) :
  lookup "homeworks" d = None ->
  check_response (PDict d)
  = raise_ TypeError "argument of type 'NoneType' is not iterable" /\
  forall e, check_response (PDict d) = Raise e -> exn_class e <> KeyError.
Proof.
  intros H.
  assert (E : check_response (PDict d)
              = raise_ TypeError "argument of type 'NoneType' is not iterable")
    by (unfold check_response, get_method; now rewrite H).
  split; [exact E |].
  intros e He. rewrite E in He. injection He as <-. discriminate.
Qed.

Lemma check_response_without_homeworks_witness :
  lookup "homeworks" [("current_date", PInt 1000)] = None /\
  check_response (PDict [("current_date", PInt 1000)])
  = raise_ TypeError "argument of type 'NoneType' is not iterable".
Proof.
  split; [reflexivity |].
  apply (check_response_without_homeworks [("current_date", PInt 1000)]).
  reflexivity.
Defined.

(** A response whose [homeworks] is a list passes, and the list is returned
    as it came, unless the text ["homeworks"] is one of its elements. *)
Lemma check_response_list (d : list (string * pyval)) (l : list pyval) :
  lookup "homeworks" d = Some (PList l) ->
  existsb (str_eq "homeworks") l = false ->
  check_response (PDict d) = Ok (PList l).
Proof.
  intros H Hl. unfold check_response, get_method. rewrite H. simpl. now rewrite Hl.
Qed.

(** ** The formatter *)

(** What [parse_status] returns for an entry with a name and a status of
    the catalog, provided the entry has no field [homework_status]. *)
Lemma parse_status_formats (d : list (string * pyval)) (name : pyval)
    (status verdict : string) :
  lookup "homework_name" d = Some name ->
  lookup "status" d = Some (PStr status) ->
  assoc status HOMEWORK_STATUSES = Some verdict ->
  lookup "homework_status" d = None ->
  parse_status (PDict d) = Ok (status_message name verdict) /\
  Str.contains (status_message name verdict) (py_str name) /\
  Str.contains (status_message name verdict) verdict.
Proof.
  intros Hn Hs Hv Hh. split; [| split].
  - unfold parse_status, str_in, has_key, getitem, status_lookup.
    now rewrite Hn, Hh, Hs, Hv.
  - unfold status_message.
    exists ("Изменился статус проверки работы " ++ Str.dq)%string,
           (Str.dq ++ ". " ++ verdict)%string.
    now rewrite !append_assoc.
  - unfold status_message.
    exists ("Изменился статус проверки работы " ++ Str.dq ++ py_str name
              ++ Str.dq ++ ". ")%string, ""%string.
    now rewrite append_nil_r, !append_assoc.
Qed.

(** C4 (the code does otherwise): the entry
    [{'homework_name': 'hw1', 'status': 'approved', 'homework_status':
    'approved'}] has a name and a status of the catalog, and [parse_status]
    does not return the message for it: line 125 tests for the key
    [homework_status] and line 126 raises a [KeyError]. *)
Theorem parse_status_refuses_homework_status :
  getitem Scenario.entry_with_homework_status "homework_name" = Ok (PStr "hw1") /\
  getitem Scenario.entry_with_homework_status "status" = Ok (PStr "approved") /\
  status_lookup (PStr "approved")
  = Ok (Some "Работа проверена: ревьюеру всё понравилось. Ура!") /\
  parse_status Scenario.entry_with_homework_status
  = raise_ KeyError ("Отсутствует ключ " ++ Str.dq ++ "status" ++ Str.dq
                       ++ " в ответе API")%string.
Proof. repeat split. Qed.

(** An entry without a status is refused with a [KeyError], by line 124,
    line 126 or the subscript of line 128. *)
Lemma parse_status_without_status (d : list (string * pyval)) :
  lookup "status" d = None ->
  exists e, parse_status (PDict d) = Raise e /\ exn_class e = KeyError.
Proof.
  intros Hs. unfold parse_status, str_in, has_key, getitem.
  destruct (lookup "homework_name" d); [| now eexists].
  destruct (lookup "homework_status" d); [now eexists |].
  rewrite Hs. now eexists.
Qed.

(** C5 (the code does otherwise): an entry without a status field is
    refused with a [KeyError], as claimed; but the [KeyError] is raised also
    for an entry that has both its name and its status, when it has a field
    [homework_status] as well. *)
Theorem missing_field_error_with_both_fields :
  (forall d, lookup "status" d = None ->
             exists e, parse_status (PDict d) = Raise e /\ exn_class e = KeyError) /\
  (exists d e,
      has_key "homework_name" d = true /\ has_key "status" d = true /\
      parse_status (PDict d) = Raise e /\ exn_class e = KeyError).
Proof.
  split; [exact parse_status_without_status |].
  exists [ ("homework_name", PStr "hw1"); ("status", PStr "reviewing");
           ("homework_status", PNone) ].
  eexists. repeat split.
Qed.

Lemma missing_field_error_with_both_fields_witness :
  lookup "status" [("homework_name", PStr "hw1")] = None /\
  exists e, parse_status (PDict [("homework_name", PStr "hw1")]) = Raise e /\
            exn_class e = KeyError.
Proof.
  split; [reflexivity |].
  apply (proj1 missing_field_error_with_both_fields). reflexivity.
Defined.

(** Whatever [check_response] returns is a list, and [parse_status] refuses
    every list: the composition of line 159 never produces a message. *)
Lemma status_never_formatted (response homework : pyval) :
  check_response response = Ok homework ->
  exists e, parse_status homework = Raise e.
Proof.
  intros H.
  assert (Hl : exists l, homework = PList l).
  { unfold check_response in H. destruct response; try discriminate.
    destruct (get_method (PDict d) "homeworks") as [hw | e]; [| discriminate].
    destruct (str_in "homeworks" hw) as [[] | e]; try discriminate.
    destruct hw; try discriminate. injection H as <-. now eexists. }
  destruct Hl as [l ->]. unfold parse_status, str_in, getitem.
  destruct (existsb (str_eq "homework_name") l); [| now eexists].
  destruct (existsb (str_eq "homework_status") l); now eexists.
Qed.

(** ** The first end-to-end scenario *)

Lemma name_error_text_plain :
  Str.isin "hw1" Scenario.name_error_text = false /\
  Str.isin "Работа проверена: ревьюеру всё понравилось. Ура!"
           Scenario.name_error_text = false.
Proof. split; reflexivity. Qed.

(** C1 (the code does otherwise): when the fetch of a round returns the
    response of the scenario, [main] hands the whole list of homeworks to
    [parse_status], which raises the [KeyError] of line 124.  The round
    sends no status message; the one text it sends, unless it was the last
    error sent, is that of the [KeyError], which contains neither [hw1] nor
    the verdict.  The cursor does advance to 1000. *)
Theorem scenario_1_reports_key_error (cfg : config) (m : machine) :
  server m O = Scenario.ok_200 Scenario.response_1 ->
  let m' := snd (iteration cfg m) in
  fst (iteration cfg m) = Ok tt /\
  current_timestamp m' = PInt 1000 /\
  sent_from StatusSite (since m m') = [] /\
  sent_from ErrorSite (since m m')
  = (if (ERROR_CACHE_MESSAGE m =? Scenario.name_error_text)%string then []
     else [Scenario.name_error_text]) /\
  ~ Str.contains Scenario.name_error_text "hw1" /\
  ~ Str.contains Scenario.name_error_text
      "Работа проверена: ревьюеру всё понравилось. Ура!".
Proof.
  intros Hs m'.
  destruct name_error_text_plain as [Hhw Hverdict].
  assert (Hrun : attempt cfg m
                 = notify_if_changed ErrorSite cfg Scenario.name_error_text
                     (record (EvLog ModuleLogger ERROR Scenario.name_error_text)
                        (set_current_timestamp (PInt 1000)
                           (next_server
                              (record (EvGet (authorization cfg)
                                         (params_of (py_or (current_timestamp m)
                                                           (PInt (clock m)))))
                                      m))))).
  { rewrite attempt_run, get_api_answer_run, Hs. reflexivity. }
  unfold m'. rewrite iteration_run, Hrun. clear Hrun m'.
  set (m2 := record _ _).
  assert (Ht2 : trace m2
                = trace m ++ [EvGet (authorization cfg)
                                (params_of (py_or (current_timestamp m)
                                                  (PInt (clock m))));
                              EvLog ModuleLogger ERROR Scenario.name_error_text])
    by (unfold m2; cbn; now rewrite <- app_assoc).
  destruct (String.eqb_spec (ERROR_CACHE_MESSAGE m) Scenario.name_error_text)
    as [E | Hne].
  - assert (Hun : notify_if_changed ErrorSite cfg Scenario.name_error_text m2
                  = (Ok tt, m2)).
    { pose proof (notify_unchanged ErrorSite cfg m2) as H.
      change (slot ErrorSite m2) with (ERROR_CACHE_MESSAGE m) in H.
      now rewrite E in H. }
    rewrite Hun. cbn [fst snd].
    assert (Hf : trace (set_clock (clock m2 + RETRY_TIME)
                                  (record (EvSleep RETRY_TIME) m2))
                 = trace m ++ [EvGet (authorization cfg)
                                 (params_of (py_or (current_timestamp m)
                                                   (PInt (clock m))));
                               EvLog ModuleLogger ERROR Scenario.name_error_text;
                               EvSleep RETRY_TIME])
      by (cbn [trace set_clock record]; rewrite Ht2, <- app_assoc; reflexivity).
    rewrite (since_app _ _ _ Hf).
    repeat split; try reflexivity; now apply not_isin_not_contains.
  - destruct (notify_changed ErrorSite cfg Scenario.name_error_text m2 Hne)
      as [text [m3 [Hrun [Ht3 [_ [_ [Hc _]]]]]]].
    rewrite Hrun. cbn [fst snd].
    assert (Hf : trace (set_clock (clock m3 + RETRY_TIME)
                                  (record (EvSleep RETRY_TIME) m3))
                 = trace m ++ [EvGet (authorization cfg)
                                 (params_of (py_or (current_timestamp m)
                                                   (PInt (clock m))));
                               EvLog ModuleLogger ERROR Scenario.name_error_text;
                               EvSend ErrorSite (TELEGRAM_CHAT_ID cfg)
                                      Scenario.name_error_text;
                               EvLog ModuleLogger INFO text;
                               EvSleep RETRY_TIME])
      by (cbn [trace set_clock record]; rewrite Ht3, Ht2, <- !app_assoc;
          reflexivity).
    rewrite (since_app _ _ _ Hf).
    repeat split; try reflexivity; try (now apply not_isin_not_contains).
    cbn [current_timestamp set_clock record]. now rewrite Hc.
Qed.

Lemma scenario_1_reports_key_error_witness :
  let m := loop_entry Scenario.cfg
             (Scenario.started (Scenario.ok_200 Scenario.response_1)) in
  server m O = Scenario.ok_200 Scenario.response_1 /\
  current_timestamp (snd (iteration Scenario.cfg m)) = PInt 1000 /\
  sent (since m (snd (iteration Scenario.cfg m))) = [Scenario.name_error_text].
Proof.
  intros m. split; [reflexivity |]. split.
  - apply (scenario_1_reports_key_error Scenario.cfg m). reflexivity.
  - vm_compute. reflexivity.
Defined.

(** ** Sample runs *)

(** A fault that [except Exception] does not catch: the round lets it
    escape, after the sleep. *)
Example interrupted_round_still_sleeps :
  let m := Scenario.started (GetRaises (mk_exn KeyboardInterrupt None)) in
  fst (iteration Scenario.cfg m) = Raise (mk_exn KeyboardInterrupt None) /\
  since m (snd (iteration Scenario.cfg m))
  = [ EvGet "OAuth y0_token" (PDict [("from_date", PInt 5)]); EvSleep 600 ].
Proof. split; reflexivity. Qed.

(** The second end-to-end scenario: the API answers 500 twice; the error is
    sent once and logged twice. *)
Example http_500_twice :
  let m := loop_entry Scenario.cfg
             (Scenario.started
                (GetReturns (mk_response 500 (JsonValue PNone)))) in
  sent (since m (snd (while_True 2 (iteration Scenario.cfg) m)))
  = ["Ошибка 500"] /\
  length (filter (fun ev => match ev with
                            | EvLog ModuleLogger ERROR _ => true
                            | _ => false
                            end)
                 (since m (snd (while_True 2 (iteration Scenario.cfg) m))))
  = 2%nat.
Proof. split; vm_compute; reflexivity. Qed.

(** A response that is not a mapping has no [get]: the [AttributeError] is
    reported and the cursor stays as it was. *)
Example list_response_keeps_cursor :
  let m := loop_entry Scenario.cfg
             (Scenario.started (Scenario.ok_200 (PList []))) in
  current_timestamp (snd (iteration Scenario.cfg m)) = PInt 5 /\
  sent (since m (snd (iteration Scenario.cfg m)))
  = ["'list' object has no attribute 'get'"].
Proof. split; vm_compute; reflexivity. Qed.

(** A response without [current_date]: the second request asks for the
    homework since the time of that request. *)
Example cursor_lost_and_defaulted :
  let m := loop_entry Scenario.cfg
             (Scenario.started
                (Scenario.ok_200 (PDict [("homeworks", PList [])]))) in
  requests (since m (snd (while_True 2 (iteration Scenario.cfg) m)))
  = [ PDict [("from_date", PInt 5)]; PDict [("from_date", PInt 605)] ].
Proof. vm_compute. reflexivity. Qed.

(** * Further properties of the functions *)

(** ** [check_response] *)

Lemma check_response_inv (response homework : pyval) :
  check_response response = Ok homework ->
  exists d l,
    response = PDict d /\ lookup "homeworks" d = Some (PList l) /\
    existsb (str_eq "homeworks") l = false /\ homework = PList l.
Proof.
  intros H. unfold check_response, get_method in H.
  destruct response; try discriminate.
  destruct (lookup "homeworks" d) as [hw |] eqn:Hl; [| discriminate].
  destruct hw; try discriminate.
  - simpl in H. destruct (Str.isin "homeworks" s); discriminate.
  - simpl in H. destruct (existsb (str_eq "homeworks") l) eqn:El;
      [discriminate |].
    injection H as <-. now exists d, l.
  - simpl in H. destruct (has_key "homeworks" d0); discriminate.
Qed.

(** [check_response] returns exactly when the response is a mapping whose
    [homeworks] is a list none of whose elements is the text ["homeworks"],
    and it returns that list as it came. *)
Theorem check_response_returns_the_list (response homework : pyval) :
  check_response response = Ok homework <->
  exists d l,
    response = PDict d /\ lookup "homeworks" d = Some (PList l) /\
    existsb (str_eq "homeworks") l = false /\ homework = PList l.
Proof.
  split; [apply check_response_inv |].
  intros [d [l [-> [Hl [He ->]]]]]. now apply check_response_list.
Qed.

Lemma check_response_returns_the_list_witness :
  check_response
    (PDict [("homeworks", PList [PDict [("status", PStr "approved")]; PInt 3])])
  = Ok (PList [PDict [("status", PStr "approved")]; PInt 3]).
Proof.
  apply (proj2 (check_response_returns_the_list _ _)).
  eexists; eexists. repeat split; reflexivity.
Defined.

Lemma check_response_error_class (response : pyval) (e : exn) :
  check_response response = Raise e ->
  exn_class e = TypeError \/
  (e = mk_exn KeyError (Some "Нет ключа homeworks") /\
   exists d hw, response = PDict d /\ lookup "homeworks" d = Some hw /\
                str_in "homeworks" hw = Ok true).
Proof.
  intros H. unfold check_response, get_method in H.
  destruct response; try (injection H as <-; now left).
  destruct (lookup "homeworks" d) as [hw |] eqn:Hl;
    [| injection H as <-; now left].
  destruct (str_in "homeworks" hw) as [[] | e'] eqn:Hin.
  - injection H as <-. right. split; [reflexivity | now exists d, hw].
  - destruct hw; try discriminate; injection H as <-; now left.
  - injection H as <-. left.
    destruct hw; simpl in Hin; try discriminate; now injection Hin as <-.
Qed.

(** Every failure of [check_response] is a [TypeError], except the
    [KeyError] of line 107, which is raised exactly when the value stored
    under [homeworks] itself contains the text ["homeworks"] (as an element
    of a list, a key of a mapping or a part of a text). *)
Theorem check_response_errors (response : pyval) (e : exn) :
  check_response response = Raise e ->
  exn_class e = TypeError \/
  (e = mk_exn KeyError (Some "Нет ключа homeworks") /\
   exists d hw, response = PDict d /\ lookup "homeworks" d = Some hw /\
                str_in "homeworks" hw = Ok true).
Proof. apply check_response_error_class. Qed.

Lemma check_response_errors_witness :
  check_response (PDict [("homeworks", PList [PStr "homeworks"])])
  = Raise (mk_exn KeyError (Some "Нет ключа homeworks")) /\
  (exn_class (mk_exn KeyError (Some "Нет ключа homeworks")) = TypeError \/
   (mk_exn KeyError (Some "Нет ключа homeworks")
    = mk_exn KeyError (Some "Нет ключа homeworks") /\
    exists d hw,
      PDict [("homeworks", PList [PStr "homeworks"])] = PDict d /\
      lookup "homeworks" d = Some hw /\ str_in "homeworks" hw = Ok true)).
Proof.
  split; [reflexivity |].
  apply (check_response_errors
           (PDict [("homeworks", PList [PStr "homeworks"])])).
  reflexivity.
Defined.

(** ** [parse_status] *)

Lemma parse_status_inv (homework : pyval) (message : string) :
  parse_status homework = Ok message ->
  exists d name status verdict,
    homework = PDict d /\ lookup "homework_name" d = Some name /\
    lookup "homework_status" d = None /\
    lookup "status" d = Some (PStr status) /\
    assoc status HOMEWORK_STATUSES = Some verdict /\
    message = status_message name verdict.
Proof.
  intros H. unfold parse_status, str_in, getitem, has_key in H.
  destruct homework; try discriminate.
  - destruct (Str.isin "homework_name" s); [| discriminate].
    destruct (Str.isin "homework_status" s); discriminate.
  - destruct (existsb (str_eq "homework_name") l); [| discriminate].
    destruct (existsb (str_eq "homework_status") l); discriminate.
  - destruct (lookup "homework_name" d) as [name |] eqn:Hn; [| discriminate].
    destruct (lookup "homework_status" d) eqn:Hh; [discriminate |].
    destruct (lookup "status" d) as [st |] eqn:Hs; [| discriminate].
    destruct st; cbv [status_lookup] in H; try discriminate.
    destruct (assoc s HOMEWORK_STATUSES) as [verdict |] eqn:Hv;
      [| discriminate].
    injection H as <-. now exists d, name, s, verdict.
Qed.

(** [parse_status] returns exactly for a mapping that has a
    [homework_name], has no key [homework_status] and whose [status] is one
    of the three keys of [HOMEWORK_STATUSES]; and for such an entry whose
    name is a text, or another value that [rendered_exactly] admits, what it
    returns is the template of line 132 filled with [str] of the name and
    the verdict of that status. *)
Theorem parse_status_returns_the_template (homework : pyval) :
  ((exists message, parse_status homework = Ok message) <->
   exists d name status verdict,
     homework = PDict d /\ lookup "homework_name" d = Some name /\
     lookup "homework_status" d = None /\
     lookup "status" d = Some (PStr status) /\
     assoc status HOMEWORK_STATUSES = Some verdict) /\
  (forall d name status verdict,
      homework = PDict d ->
      lookup "homework_name" d = Some name ->
      lookup "homework_status" d = None ->
      lookup "status" d = Some (PStr status) ->
      assoc status HOMEWORK_STATUSES = Some verdict ->
      rendered_exactly name = true ->
      parse_status homework = Ok (status_message name verdict)).
Proof.
  split; [split |].
  - intros [message H]. apply parse_status_inv in H.
    destruct H as [d [name [status [verdict [H1 [H2 [H3 [H4 [H5 _]]]]]]]]].
    now exists d, name, status, verdict.
  - intros [d [name [status [verdict [-> [Hn [Hh [Hs Hv]]]]]]]].
    eexists. exact (proj1 (parse_status_formats d name status verdict
                             Hn Hs Hv Hh)).
  - intros d name status verdict -> Hn Hh Hs Hv _.
    exact (proj1 (parse_status_formats d name status verdict Hn Hs Hv Hh)).
Qed.

Lemma parse_status_returns_the_template_witness :
  rendered_exactly (PList [PStr "hw"; PInt 7]) = true /\
  parse_status (PDict [("status", PStr "rejected");
                       ("homework_name", PList [PStr "hw"; PInt 7])])
  = Ok (status_message (PList [PStr "hw"; PInt 7])
                       "Работа проверена: у ревьюера есть замечания.").
Proof.
  split; [reflexivity |].
  apply (proj2 (parse_status_returns_the_template
                  (PDict [("status", PStr "rejected");
                          ("homework_name", PList [PStr "hw"; PInt 7])]))
           [("status", PStr "rejected");
            ("homework_name", PList [PStr "hw"; PInt 7])]
           (PList [PStr "hw"; PInt 7]) "rejected"%string
           "Работа проверена: у ревьюера есть замечания."%string);
    reflexivity.
Defined.

(** An entry with a name, without a key [homework_status] and with a status
    that can be hashed but is not a key of the catalog is refused with
    [UnknownStatusException]; the text of the exception is the same whatever
    the status is. *)
Theorem parse_status_unknown_status (d : list (string * pyval))
    (name status : pyval) :
  lookup "homework_name" d = Some name ->
  lookup "homework_status" d = None ->
  lookup "status" d = Some status ->
  status_lookup status = Ok None ->
  parse_status (PDict d)
  = Raise (mk_exn UnknownStatusException (Some "Неизвестный статус работы:")) /\
  exn_str (mk_exn UnknownStatusException (Some "Неизвестный статус работы:"))
  = "Неизвестный статус работы:".
Proof.
  intros Hn Hh Hs Hl. split; [| reflexivity].
  unfold parse_status, str_in, getitem, has_key. now rewrite Hn, Hh, Hs, Hl.
Qed.

Lemma parse_status_unknown_status_witness :
  parse_status (PDict [("homework_name", PStr "hw1"); ("status", PStr "weird")])
  = Raise (mk_exn UnknownStatusException (Some "Неизвестный статус работы:")).
Proof.
  apply (parse_status_unknown_status
           [("homework_name", PStr "hw1"); ("status", PStr "weird")]
           (PStr "hw1") (PStr "weird")); reflexivity.
Defined.

Lemma append_inj_l (a x y : string) : (a ++ x = a ++ y)%string -> x = y.
Proof.
  induction a as [|c a IH]; simpl; [easy |].
  intros H. injection H as H. now apply IH.
Qed.

Lemma catalog_injective (s1 s2 verdict : string) :
  assoc s1 HOMEWORK_STATUSES = Some verdict ->
  assoc s2 HOMEWORK_STATUSES = Some verdict -> s1 = s2.
Proof.
  unfold HOMEWORK_STATUSES. cbn [assoc].
  destruct (String.eqb_spec s1 "approved") as [-> |];
    [| destruct (String.eqb_spec s1 "reviewing") as [-> |];
       [| destruct (String.eqb_spec s1 "rejected") as [-> |];
          [| discriminate]]];
    (destruct (String.eqb_spec s2 "approved") as [-> |];
     [| destruct (String.eqb_spec s2 "reviewing") as [-> |];
        [| destruct (String.eqb_spec s2 "rejected") as [-> |];
           [| intros _ H; discriminate H]]]);
    intros [= <-] H; try reflexivity; discriminate H.
Qed.

(** Two entries with the same name and different statuses never give the
    same message: a change of status of a homework is a change of the text
    that the de-duplication of [main] compares. *)
Theorem status_change_changes_message (d1 d2 : list (string * pyval))
    (m1 m2 : string) :
  parse_status (PDict d1) = Ok m1 ->
  parse_status (PDict d2) = Ok m2 ->
  lookup "homework_name" d1 = lookup "homework_name" d2 ->
  lookup "status" d1 <> lookup "status" d2 ->
  m1 <> m2.
Proof.
  intros H1 H2 Hn Hs E.
  apply parse_status_inv in H1, H2.
  destruct H1 as [d1' [n1 [s1 [v1 [[= <-] [Hn1 [_ [Hs1 [Hv1 ->]]]]]]]]].
  destruct H2 as [d2' [n2 [s2 [v2 [[= <-] [Hn2 [_ [Hs2 [Hv2 ->]]]]]]]]].
  rewrite Hn1, Hn2 in Hn. injection Hn as <-.
  unfold status_message in E.
  do 5 apply append_inj_l in E. subst v2.
  rewrite (catalog_injective s1 s2 v1 Hv1 Hv2) in Hs1.
  apply Hs. now rewrite Hs1, Hs2.
Qed.

Lemma status_change_changes_message_witness :
  status_message (PStr "hw1") "Работа взята на проверку ревьюером."
  <> status_message (PStr "hw1") "Работа проверена: ревьюеру всё понравилось. Ура!".
Proof.
  apply (status_change_changes_message
           [("homework_name", PStr "hw1"); ("status", PStr "reviewing")]
           [("homework_name", PStr "hw1"); ("status", PStr "approved")]);
    try reflexivity.
  discriminate.
Defined.

(** ** [check_tokens] *)

Lemma not_nonempty_missing (v : option string) : ~ nonempty v -> missing v.
Proof.
  intros H. destruct v as [s |]; [| now left].
  destruct (String.eqb_spec s ""); [subst; now right |].
  destruct H. now exists s.
Qed.

(** [check_tokens] returns [False] exactly when one of the three values is
    not set or is the empty text. *)
Theorem check_tokens_refuses_exactly_missing (cfg : config) :
  check_tokens cfg = false <->
  missing (PRACTICUM_TOKEN cfg) \/ missing (TELEGRAM_TOKEN cfg) \/
  missing (TELEGRAM_CHAT_ID cfg).
Proof.
  split; [| apply check_tokens_false].
  intros H.
  destruct (truthy (env_value (PRACTICUM_TOKEN cfg))) eqn:E1;
    [| left; apply not_nonempty_missing; intros N;
       apply truthy_env_value in N; congruence].
  destruct (truthy (env_value (TELEGRAM_TOKEN cfg))) eqn:E2;
    [| right; left; apply not_nonempty_missing; intros N;
       apply truthy_env_value in N; congruence].
  destruct (truthy (env_value (TELEGRAM_CHAT_ID cfg))) eqn:E3;
    [| right; right; apply not_nonempty_missing; intros N;
       apply truthy_env_value in N; congruence].
  unfold check_tokens in H. simpl in H. rewrite E1, E2, E3 in H. discriminate.
Qed.

Lemma check_tokens_refuses_exactly_missing_witness :
  check_tokens (mk_config (Some "y0_token") (Some "123:bot") (Some "")) = false.
Proof.
  apply (proj2 (check_tokens_refuses_exactly_missing
                  (mk_config (Some "y0_token") (Some "123:bot") (Some "")))).
  right; right; now right.
Defined.

(** ** [get_api_answer] *)

Lemma contains_suffix (a t : string) : Str.contains (a ++ t)%string t.
Proof. exists a, ""%string. now rewrite append_nil_r. Qed.

(** An answer whose status is not 200 is refused whatever its body:
    [get_api_answer] raises a [GetApiAnswerException] whose text ends with the
    status code, after one line on the root logger, and the body is never
    decoded. *)
Theorem fetch_refuses_other_statuses (cfg : config) (cursor : pyval)
    (m : machine) (r : response) :
  server m O = GetReturns r ->
  status_code r <> 200 ->
  let text := ("Ошибка " ++ Str.of_Z (status_code r))%string in
  fst (get_api_answer cfg cursor m)
  = Raise (mk_exn GetApiAnswerException (Some text)) /\
  Str.contains (exn_str (mk_exn GetApiAnswerException (Some text)))
               (Str.of_Z (status_code r)) /\
  since m (snd (get_api_answer cfg cursor m))
  = [ EvGet (authorization cfg) (params_of (py_or cursor (PInt (clock m))));
      EvLog RootLogger ERROR text ].
Proof.
  intros Hs Hc text. rewrite get_api_answer_run, Hs.
  destruct (Z.eqb_spec (status_code r) 200) as [E | _]; [contradiction |].
  split; [reflexivity |]. split; [apply contains_suffix |].
  apply since_app. cbn. now rewrite <- app_assoc.
Qed.

Lemma fetch_refuses_other_statuses_witness :
  fst (get_api_answer Scenario.cfg PNone
         (Scenario.started
            (GetReturns (mk_response 503 (JsonValue Scenario.response_1)))))
  = Raise (mk_exn GetApiAnswerException (Some "Ошибка 503")).
Proof.
  apply (fetch_refuses_other_statuses Scenario.cfg PNone
           (Scenario.started
              (GetReturns (mk_response 503 (JsonValue Scenario.response_1))))
           (mk_response 503 (JsonValue Scenario.response_1)));
    [reflexivity | discriminate].
Defined.

(** [get_api_answer] returns a value exactly when the API answers with
    status 200 and a body that decodes, and the value is the decoded body. *)
Theorem fetch_returns_the_decoded_body (cfg : config) (cursor : pyval)
    (m : machine) (v : pyval) :
  fst (get_api_answer cfg cursor m) = Ok v <->
  exists r, server m O = GetReturns r /\ status_code r = 200 /\
            json r = JsonValue v.
Proof.
  rewrite get_api_answer_run. split.
  - destruct (server m O) as [e | r].
    + destruct (caught_by GetApiAnswerException e); discriminate.
    + destruct (Z.eqb_spec (status_code r) 200) as [E | _]; [| discriminate].
      destruct (json r) as [x | e] eqn:Hj.
      * intros [= <-]. now exists r.
      * destruct (caught_by JSONDecodeError e); [discriminate |].
        destruct (caught_by ConnectionError e); discriminate.
  - intros [r [-> [Hc Hj]]]. now rewrite Hc, Hj.
Qed.

Lemma fetch_returns_the_decoded_body_witness :
  fst (get_api_answer Scenario.cfg (PInt 7)
         (Scenario.started (Scenario.ok_200 Scenario.response_1)))
  = Ok Scenario.response_1.
Proof.
  apply (proj2 (fetch_returns_the_decoded_body Scenario.cfg (PInt 7)
                  (Scenario.started (Scenario.ok_200 Scenario.response_1))
                  Scenario.response_1)).
  eexists. repeat split; reflexivity.
Defined.

(** When the body of a 200 answer does not decode, the caller gets the very
    exception that [json()] raised, whatever its class; the two [except]
    clauses of lines 86 to 91 add at most one line to the log. *)
Theorem fetch_passes_decode_failure_on (cfg : config) (cursor : pyval)
    (m : machine) (r : response) (e : exn) :
  server m O = GetReturns r ->
  status_code r = 200 ->
  json r = JsonRaises e ->
  fst (get_api_answer cfg cursor m) = Raise e /\
  exists logs,
    since m (snd (get_api_answer cfg cursor m))
    = EvGet (authorization cfg) (params_of (py_or cursor (PInt (clock m))))
        :: logs /\
    (length logs <= 1)%nat /\ Forall is_log logs.
Proof.
  intros Hs Hc Hj. rewrite get_api_answer_run, Hs, Hc, Hj. simpl (200 =? 200).
  cbv iota.
  destruct (caught_by JSONDecodeError e);
    [| destruct (caught_by ConnectionError e)];
    (split; [reflexivity |]).
  - eexists. split; [apply since_app; cbn; now rewrite <- app_assoc |].
    split; [simpl; lia | repeat constructor].
  - eexists. split; [apply since_app; cbn; now rewrite <- app_assoc |].
    split; [simpl; lia | repeat constructor].
  - exists []. split; [now apply since_app |]. split; [simpl; lia | constructor].
Qed.

Lemma fetch_passes_decode_failure_on_witness :
  fst (get_api_answer Scenario.cfg (PInt 7)
         (Scenario.started
            (GetReturns
               (mk_response 200
                  (JsonRaises (mk_exn JSONDecodeError
                                      (Some "Expecting value")))))))
  = Raise (mk_exn JSONDecodeError (Some "Expecting value")).
Proof.
  apply (fetch_passes_decode_failure_on Scenario.cfg (PInt 7)
           (Scenario.started
              (GetReturns
                 (mk_response 200
                    (JsonRaises (mk_exn JSONDecodeError
                                        (Some "Expecting value"))))))
           (mk_response 200
              (JsonRaises (mk_exn JSONDecodeError (Some "Expecting value"))))
           (mk_exn JSONDecodeError (Some "Expecting value")));
    reflexivity.
Defined.

Lemma log_only (logs : list event) :
  Forall is_log logs -> requests logs = [] /\ sent logs = [] /\ sleeps logs = [].
Proof.
  induction 1 as [|ev logs H _ IH]; [easy |].
  destruct ev; simpl in *; try contradiction. exact IH.
Qed.

(** What the fetch does to the machine: the request, then lines of the log,
    and one answer of the API used up. *)
Lemma get_api_answer_effects (cfg : config) (cursor : pyval) (m : machine) :
  let m' := snd (get_api_answer cfg cursor m) in
  (exists logs,
      trace m'
      = trace m ++ EvGet (authorization cfg)
                         (params_of (py_or cursor (PInt (clock m)))) :: logs /\
      Forall is_log logs) /\
  current_timestamp m' = current_timestamp m /\
  MESSAGE_STATUS m' = MESSAGE_STATUS m /\
  ERROR_CACHE_MESSAGE m' = ERROR_CACHE_MESSAGE m /\
  clock m' = clock m /\
  (forall i, server m' i = server m (S i)) /\
  (forall i, chat m' i = chat m i).
Proof.
  intros m'. unfold m'. rewrite get_api_answer_run.
  assert (Hlog : forall lg lvl text, Forall is_log [EvLog lg lvl text])
    by (intros; repeat constructor).
  destruct (server m O) as [e | r].
  - destruct (caught_by GetApiAnswerException e); (split; [| now repeat split]).
    + eexists. split; [cbn; now rewrite <- app_assoc | apply Hlog].
    + exists []. now split.
  - destruct (status_code r =? 200).
    + destruct (json r) as [x | e].
      * split; [| now repeat split]. exists []. now split.
      * destruct (caught_by JSONDecodeError e);
          [| destruct (caught_by ConnectionError e)];
          (split; [| now repeat split]).
        -- eexists. split; [cbn; now rewrite <- app_assoc | apply Hlog].
        -- eexists. split; [cbn; now rewrite <- app_assoc | apply Hlog].
        -- exists []. now split.
    + split; [| now repeat split].
      eexists. split; [cbn; now rewrite <- app_assoc | apply Hlog].
Qed.

(** Whatever the API answers, one call of [get_api_answer] makes exactly one
    request, whose [from_date] is the cursor when it is true and the time of
    the call otherwise, uses up one answer of the API, sends nothing to the
    chat, does not sleep and leaves the variables of [main] and the clock as
    they were. *)
Theorem fetch_makes_one_request (cfg : config) (cursor : pyval) (m : machine) :
  let m' := snd (get_api_answer cfg cursor m) in
  requests (since m m')
  = [PDict [("from_date", if truthy cursor then cursor else PInt (clock m))]] /\
  sent (since m m') = [] /\ sleeps (since m m') = [] /\
  current_timestamp m' = current_timestamp m /\
  MESSAGE_STATUS m' = MESSAGE_STATUS m /\
  ERROR_CACHE_MESSAGE m' = ERROR_CACHE_MESSAGE m /\
  clock m' = clock m /\
  (forall i, server m' i = server m (S i)).
Proof.
  intros m'.
  destruct (get_api_answer_effects cfg cursor m)
    as [[logs [Ht Hl]] [Hc [Hm [He [Hk [Hs _]]]]]].
  fold m' in Ht, Hc, Hm, He, Hk, Hs.
  rewrite (since_app _ _ _ Ht).
  destruct (log_only logs Hl) as [Hr [Hsent Hsl]]. simpl.
  rewrite Hr, Hsent, Hsl. now repeat split.
Qed.

(** ** [send_message] and the two slots *)

(** What [send_message] does on the two outcomes the bot has here, delivery
    and [TelegramError]: one call of the bot, one line of the log. *)
Lemma send_message_effects (site : call_site) (cfg : config)
    (message : string) (m : machine) :
  let m' := snd (send_message site cfg message m) in
  fst (send_message site cfg message m) = Ok tt /\
  (exists line,
      since m m' = [ EvSend site (TELEGRAM_CHAT_ID cfg) message;
                     EvLog ModuleLogger INFO line ] /\
      (chat m O = Delivered -> Str.contains line message) /\
      (forall t, chat m O = TelegramError t ->
                 line = "Ошибка отправки сообщения")) /\
  current_timestamp m' = current_timestamp m /\
  MESSAGE_STATUS m' = MESSAGE_STATUS m /\
  ERROR_CACHE_MESSAGE m' = ERROR_CACHE_MESSAGE m /\
  clock m' = clock m.
Proof.
  intros m'.
  set (delivered := ("Сообщение в чат "
                       ++ py_str (env_value (TELEGRAM_CHAT_ID cfg))
                       ++ ":" ++ message)%string).
  assert (Hrun : send_message site cfg message m
                 = (Ok tt,
                    record (EvLog ModuleLogger INFO
                                  match chat m O with
                                  | Delivered => delivered
                                  | TelegramError _ =>
                                      "Ошибка отправки сообщения"%string
                                  end)
                           (next_chat
                              (record (EvSend site (TELEGRAM_CHAT_ID cfg)
                                              message) m)))).
  { unfold send_message, bot_send_message, bind, update, read, ret, log.
    cbn -[String.append py_str]. now destruct (chat m O). }
  unfold m'. rewrite Hrun. split; [reflexivity |].
  split; [| now repeat split].
  eexists. split; [apply since_app; cbn [snd trace record next_chat];
                   now rewrite <- app_assoc |].
  split.
  - intros ->. unfold delivered.
    exists ("Сообщение в чат " ++ py_str (env_value (TELEGRAM_CHAT_ID cfg))
              ++ ":")%string, ""%string.
    now rewrite append_nil_r, !append_assoc.
  - now intros t ->.
Qed.

(** On a delivery, and on a [TelegramError] of the bot, [send_message]
    returns normally after one call of the bot, with the chat id and the
    text, and one line of the log: a line that holds the text when the bot
    delivered it, and the fixed line of line 57 when the bot raised
    [TelegramError], which lines 56 and 57 catch. *)
Theorem send_message_swallows_TelegramError (site : call_site) (cfg : config)
    (message : string) (m : machine) :
  let m' := snd (send_message site cfg message m) in
  (chat m O = Delivered ->
   fst (send_message site cfg message m) = Ok tt /\
   exists line,
     since m m' = [ EvSend site (TELEGRAM_CHAT_ID cfg) message;
                    EvLog ModuleLogger INFO line ] /\
     Str.contains line message) /\
  (forall t, chat m O = TelegramError t ->
   fst (send_message site cfg message m) = Ok tt /\
   since m m' = [ EvSend site (TELEGRAM_CHAT_ID cfg) message;
                  EvLog ModuleLogger INFO "Ошибка отправки сообщения" ]).
Proof.
  intros m'.
  destruct (send_message_effects site cfg message m)
    as [Hf [[line [Hs [Hd Ht]]] _]].
  fold m' in Hs. split.
  - intros Hc. split; [exact Hf |]. exists line. split; [exact Hs | now apply Hd].
  - intros t Hc. split; [exact Hf |]. now rewrite Hs, (Ht t Hc).
Qed.

(** A text whose delivery failed is remembered as sent all the same: the
    slot of the call site takes the text, and the same text coming again is
    not offered to the bot a second time. *)
Theorem failed_delivery_is_not_retried (site : call_site) (cfg : config)
    (message : string) (m : machine) (t : string) :
  slot site m <> message ->
  chat m O = TelegramError t ->
  let m1 := snd (notify_if_changed site cfg message m) in
  slot site m1 = message /\
  since m m1 = [ EvSend site (TELEGRAM_CHAT_ID cfg) message;
                 EvLog ModuleLogger INFO "Ошибка отправки сообщения" ] /\
  notify_if_changed site cfg message m1 = (Ok tt, m1).
Proof.
  intros Hne Hc m1.
  assert (Hrun : notify_if_changed site cfg message m
                 = (Ok tt,
                    set_slot site message
                      (record (EvLog ModuleLogger INFO
                                     "Ошибка отправки сообщения")
                         (next_chat
                            (record (EvSend site (TELEGRAM_CHAT_ID cfg) message)
                                    m))))).
  { unfold notify_if_changed, bind, read.
    destruct (String.eqb_spec message (slot site m)) as [E | _];
      [now destruct Hne |].
    cbn. unfold send_message, bot_send_message, bind, update, read, ret, log.
    cbn. now rewrite Hc. }
  assert (Hs : slot site m1 = message)
    by (unfold m1; rewrite Hrun; now destruct site).
  split; [exact Hs |]. split.
  - unfold m1. rewrite Hrun. apply since_app.
    destruct site; cbn; now rewrite <- app_assoc.
  - rewrite <- Hs at 1. apply notify_unchanged.
Qed.

Lemma failed_delivery_is_not_retried_witness :
  let m := boot 5 (fun _ => GetRaises Scenario.connection_failure)
                (fun _ => TelegramError "Timed out") None in
  slot ErrorSite (snd (notify_if_changed ErrorSite Scenario.cfg "boom" m))
  = "boom".
Proof.
  intros m.
  apply (failed_delivery_is_not_retried ErrorSite Scenario.cfg "boom" m
           "Timed out"); [discriminate | reflexivity].
Defined.

(** ** What a round ends with *)

Lemma sent_app (t u : list event) : sent (t ++ u) = sent t ++ sent u.
Proof.
  induction t as [|ev t IH]; simpl; [reflexivity |].
  destruct ev; simpl; now rewrite ?IH.
Qed.

Lemma sleeps_app (t u : list event) : sleeps (t ++ u) = sleeps t ++ sleeps u.
Proof.
  induction t as [|ev t IH]; simpl; [reflexivity |].
  destruct ev; simpl; now rewrite ?IH.
Qed.

Lemma get_api_answer_fst (cfg : config) (cursor : pyval) (m : machine) :
  fst (get_api_answer cfg cursor m) = fetch_outcome (server m O).
Proof.
  rewrite get_api_answer_run. unfold fetch_outcome.
  destruct (server m O) as [e | r].
  - now destruct (caught_by GetApiAnswerException e).
  - destruct (status_code r =? 200); [| reflexivity].
    destruct (json r) as [x | e]; [reflexivity |].
    destruct (caught_by JSONDecodeError e); [reflexivity |].
    now destruct (caught_by ConnectionError e).
Qed.

Lemma str_in_raises (s : string) (v : pyval) (e : exn) :
  str_in s v = Raise e -> exn_class e = TypeError.
Proof. destruct v; simpl; try discriminate; now intros [= <-]. Qed.

Lemma getitem_raises (v : pyval) (k : string) (e : exn) :
  getitem v k = Raise e -> exn_class e = TypeError \/ exn_class e = KeyError.
Proof.
  destruct v; simpl; try (intros [= <-]; now left).
  destruct (lookup k d); [discriminate | intros [= <-]; now right].
Qed.

Lemma status_lookup_raises (v : pyval) (e : exn) :
  status_lookup v = Raise e -> exn_class e = TypeError.
Proof. destruct v; simpl; try discriminate; now intros [= <-]. Qed.

(** The exceptions of [parse_status] are [KeyError]s, [TypeError]s and
    [UnknownStatusException]s. *)
Lemma parse_status_error_class (homework : pyval) (e : exn) :
  parse_status homework = Raise e ->
  exn_class e = KeyError \/ exn_class e = TypeError \/
  exn_class e = UnknownStatusException.
Proof.
  unfold parse_status.
  destruct (str_in "homework_name" homework) as [[] | e1] eqn:H1.
  - destruct (str_in "homework_status" homework) as [[] | e2] eqn:H2.
    + intros [= <-]. now left.
    + destruct (getitem homework "homework_name") as [name | e3] eqn:H3.
      * destruct (getitem homework "status") as [st | e4] eqn:H4.
        -- destruct (status_lookup st) as [[verdict |] | e5] eqn:H5.
           ++ discriminate.
           ++ intros [= <-]. now right; right.
           ++ intros [= <-]. right; left. now apply status_lookup_raises in H5.
        -- intros [= <-]. apply getitem_raises in H4. tauto.
      * intros [= <-]. apply getitem_raises in H3. tauto.
    + intros [= <-]. right; left. now apply str_in_raises in H2.
  - intros [= <-]. now left.
  - intros [= <-]. right; left. now apply str_in_raises in H1.
Qed.

Lemma class_caught (e : exn) (c : exc_class) :
  exn_class e = c -> issubclass c Exception = true ->
  caught_by Exception e = true.
Proof. unfold caught_by. now intros ->. Qed.

(** Lines 158 and 159 always end in an exception, and [except Exception]
    catches it. *)
Lemma digest_outcome_raises (v : pyval) :
  exists e, digest_outcome v = Raise e /\ caught_by Exception e = true.
Proof.
  unfold digest_outcome.
  destruct (get_method v "current_date") as [date | e] eqn:Hg.
  - destruct (check_response v) as [homework | e] eqn:Hc.
    + destruct (status_never_formatted v homework Hc) as [e He].
      exists e. split; [exact He |].
      destruct (parse_status_error_class homework e He) as [H | [H | H]];
        now apply (class_caught e _ H).
    + exists e. split; [reflexivity |].
      destruct (check_response_error_class v e Hc) as [H | [-> _]];
        [now apply (class_caught e _ H) | reflexivity].
  - exists e. split; [reflexivity |].
    destruct v; simpl in Hg; try discriminate; now injection Hg as <-.
Qed.

Lemma digest_effects (cfg : config) (v : pyval) (m : machine) (e : exn) :
  digest_outcome v = Raise e ->
  digest cfg v m
  = (Raise e,
     match get_method v "current_date" with
     | Ok date => set_current_timestamp date m
     | Raise _ => m
     end).
Proof.
  unfold digest_outcome. rewrite digest_run.
  destruct (get_method v "current_date") as [date | e1]; [| now intros [= <-]].
  destruct (check_response v) as [homework | e2]; [| now intros [= <-]].
  now intros ->.
Qed.

(** What the [except] clause does: it always returns, remembers the text of
    the error, and sends it unless it was the text remembered. *)
Lemma report_effects (cfg : config) (e : exn) (m : machine) :
  let m' := snd (report cfg e m) in
  fst (report cfg e m) = Ok tt /\
  ERROR_CACHE_MESSAGE m' = exn_str e /\
  MESSAGE_STATUS m' = MESSAGE_STATUS m /\
  current_timestamp m' = current_timestamp m /\
  clock m' = clock m /\
  (forall i, server m' i = server m i) /\
  exists evs,
    trace m' = trace m ++ evs /\
    sent evs = (if (exn_str e =? ERROR_CACHE_MESSAGE m)%string then []
                else [exn_str e]) /\
    sent_from StatusSite evs = [] /\ requests evs = [] /\ sleeps evs = [].
Proof.
  intros m'. unfold m'. rewrite report_run.
  set (m0 := record (EvLog ModuleLogger ERROR (exn_str e)) m).
  destruct (String.eqb_spec (exn_str e) (ERROR_CACHE_MESSAGE m)) as [E | Hne].
  - pose proof (notify_unchanged ErrorSite cfg m0) as Hrun.
    change (slot ErrorSite m0) with (ERROR_CACHE_MESSAGE m) in Hrun.
    rewrite <- E in Hrun. rewrite Hrun. cbn [fst snd].
    repeat split; try reflexivity; [now symmetry |].
    exists [EvLog ModuleLogger ERROR (exn_str e)]. now repeat split.
  - assert (Hne' : slot ErrorSite m0 <> exn_str e)
      by (intros H; apply Hne; now rewrite <- H).
    assert (Hrun : exists line,
               notify_if_changed ErrorSite cfg (exn_str e) m0
               = (Ok tt,
                  set_ERROR_CACHE_MESSAGE (exn_str e)
                    (record (EvLog ModuleLogger INFO line)
                       (next_chat
                          (record (EvSend ErrorSite (TELEGRAM_CHAT_ID cfg)
                                          (exn_str e)) m0))))).
    { unfold notify_if_changed, bind, read.
      destruct (String.eqb_spec (exn_str e) (slot ErrorSite m0)) as [E | _];
        [now destruct Hne' |].
      cbn -[exn_str String.append py_str].
      unfold send_message, bot_send_message, bind, update, read, ret, log.
      cbn -[exn_str String.append py_str].
      destruct (chat m O); now eexists. }
    destruct Hrun as [line Hrun]. rewrite Hrun. cbn [fst snd].
    repeat split; try reflexivity.
    exists [ EvLog ModuleLogger ERROR (exn_str e);
             EvSend ErrorSite (TELEGRAM_CHAT_ID cfg) (exn_str e);
             EvLog ModuleLogger INFO line ].
    repeat split; try reflexivity.
    unfold m0. cbn [trace set_ERROR_CACHE_MESSAGE record next_chat].
    now rewrite <- !app_assoc.
Qed.

Lemma next_cursor_fetch (h : http_result) (cursor : pyval) :
  next_cursor h cursor
  = match fetch_outcome h with
    | Ok v =>
        match get_method v "current_date" with
        | Ok date => date
        | Raise _ => cursor
        end
    | Raise _ => cursor
    end.
Proof.
  unfold next_cursor, fetch_outcome. destruct h as [e | r].
  - now destruct (caught_by GetApiAnswerException e).
  - destruct (status_code r =? 200); [| reflexivity].
    destruct (json r) as [x | e]; [| reflexivity]. now destruct x.
Qed.

Lemma round_exn_escaping (h : http_result) (e : exn) :
  round_exn h = Some e -> caught_by Exception e = negb (escaping h).
Proof.
  unfold round_exn, fetch_outcome, escaping. destruct h as [e0 | r].
  - destruct (caught_by GetApiAnswerException e0) eqn:Hc; intros [= <-].
    + unfold caught_by in *. now destruct (exn_class e0).
    + symmetry. apply negb_involutive.
  - destruct (status_code r =? 200); [| now intros [= <-]].
    destruct (json r) as [x | e0].
    + destruct (digest_outcome_raises x) as [e' [-> Hc]]. now intros [= <-].
    + intros [= <-]. symmetry. apply negb_involutive.
Qed.

(** One round, summed up: the exception its [try] ends with decides what is
    sent and remembered; everything else is the same for all rounds. *)
Lemma round_summary (cfg : config) (m : machine) :
  let m' := snd (iteration cfg m) in
  exists e,
    round_exn (server m O) = Some e /\
    current_timestamp m' = next_cursor (server m O) (current_timestamp m) /\
    MESSAGE_STATUS m' = MESSAGE_STATUS m /\
    clock m' = clock m + RETRY_TIME /\
    (forall i, server m' i = server m (S i)) /\
    sent_from StatusSite (since m m') = [] /\
    sleeps (since m m') = [RETRY_TIME] /\
    if caught_by Exception e then
      fst (iteration cfg m) = Ok tt /\
      ERROR_CACHE_MESSAGE m' = exn_str e /\
      sent (since m m')
      = (if (exn_str e =? ERROR_CACHE_MESSAGE m)%string then []
         else [exn_str e])
    else
      fst (iteration cfg m) = Raise e /\
      ERROR_CACHE_MESSAGE m' = ERROR_CACHE_MESSAGE m /\
      sent (since m m') = [].
Proof.
  intros m'. unfold m'. clear m'.
  rewrite iteration_run, attempt_run, next_cursor_fetch. unfold round_exn.
  pose proof (get_api_answer_fst cfg (current_timestamp m) m) as Hf.
  destruct (get_api_answer_effects cfg (current_timestamp m) m)
    as [[logs [Ht Hl]] [Hc [Hm [He [Hk [Hs _]]]]]].
  destruct (log_only logs Hl) as [_ [Hsent Hsleep]].
  assert (Hstatus : sent_from StatusSite logs = []).
  { clear - Hl. induction Hl as [|ev logs H _ IH]; [reflexivity |].
    destruct ev; simpl in *; try contradiction. exact IH. }
  destruct (get_api_answer cfg (current_timestamp m) m) as [r m1].
  simpl in Hf, Ht, Hc, Hm, He, Hk, Hs. rewrite <- Hf. clear Hf.
  assert (Hreport : forall e m2,
             caught_by Exception e = true ->
             trace m2 = trace m1 -> MESSAGE_STATUS m2 = MESSAGE_STATUS m1 ->
             ERROR_CACHE_MESSAGE m2 = ERROR_CACHE_MESSAGE m1 ->
             clock m2 = clock m1 -> (forall i, server m2 i = server m1 i) ->
             let m' := set_clock (clock (snd (report cfg e m2)) + RETRY_TIME)
                         (record (EvSleep RETRY_TIME) (snd (report cfg e m2))) in
             current_timestamp m' = current_timestamp m2 /\
             MESSAGE_STATUS m' = MESSAGE_STATUS m /\
             clock m' = clock m + RETRY_TIME /\
             (forall i, server m' i = server m (S i)) /\
             sent_from StatusSite (since m m') = [] /\
             sleeps (since m m') = [RETRY_TIME] /\
             fst (report cfg e m2) = Ok tt /\
             ERROR_CACHE_MESSAGE m' = exn_str e /\
             sent (since m m')
             = (if (exn_str e =? ERROR_CACHE_MESSAGE m)%string then []
                else [exn_str e])).
  { intros e m2 Hcaught Ht2 Hm2 He2 Hk2 Hs2 m'.
    destruct (report_effects cfg e m2)
      as [Hr1 [Hr2 [Hr3 [Hr4 [Hr5 [Hr6 [evs [Hr7 [Hr8 [Hr9 [_ Hr10]]]]]]]]]]].
    assert (Htr : trace m'
                  = trace m ++ (EvGet (authorization cfg)
                                  (params_of (py_or (current_timestamp m)
                                                    (PInt (clock m)))) :: logs)
                              ++ evs ++ [EvSleep RETRY_TIME]).
    { unfold m'. cbn [trace set_clock record].
      rewrite Hr7, Ht2, Ht, <- !app_assoc. reflexivity. }
    rewrite (since_app _ _ _ Htr). unfold m'.
    cbn [current_timestamp MESSAGE_STATUS ERROR_CACHE_MESSAGE clock server
         set_clock record].
    rewrite Hr4, Hr3, Hr5, Hm2, Hm, Hk2, Hk, Hr2, He2, He in *.
    repeat split; try reflexivity.
    - intros i. now rewrite Hr6, Hs2, Hs.
    - simpl. now rewrite !sent_from_app, Hstatus, Hr9.
    - simpl. now rewrite !sleeps_app, Hsleep, Hr10.
    - exact Hr1.
    - simpl. rewrite !sent_app, Hsent, Hr8. simpl. now rewrite app_nil_r. }
  destruct r as [v | e].
  - destruct (digest_outcome_raises v) as [e [Hd Hcaught]]. rewrite Hd.
    exists e. split; [reflexivity |]. rewrite Hcaught.
    unfold try_except. rewrite (digest_effects cfg v m1 e Hd).
    simpl handler_for. rewrite Hcaught.
    set (m2 := match get_method v "current_date" with
               | Ok date => set_current_timestamp date m1
               | Raise _ => m1
               end).
    assert (Hm2 : trace m2 = trace m1 /\ MESSAGE_STATUS m2 = MESSAGE_STATUS m1 /\
                  ERROR_CACHE_MESSAGE m2 = ERROR_CACHE_MESSAGE m1 /\
                  clock m2 = clock m1 /\ (forall i, server m2 i = server m1 i) /\
                  current_timestamp m2
                  = match get_method v "current_date" with
                    | Ok date => date
                    | Raise _ => current_timestamp m
                    end).
    { unfold m2. destruct (get_method v "current_date"); now repeat split. }
    destruct Hm2 as [H1 [H2 [H3 [H4 [H5 H6]]]]].
    destruct (Hreport e m2 Hcaught H1 H2 H3 H4 H5)
      as [G1 [G2 [G3 [G4 [G5 [G6 [G7 [G8 G9]]]]]]]].
    cbn [fst snd]. rewrite G1, H6. now repeat split.
  - exists e. split; [reflexivity |].
    destruct (caught_by Exception e) eqn:Hcaught.
    + destruct (Hreport e m1 Hcaught eq_refl eq_refl eq_refl eq_refl
                  (fun _ => eq_refl))
        as [G1 [G2 [G3 [G4 [G5 [G6 [G7 [G8 G9]]]]]]]].
      cbn [fst snd]. rewrite G1, Hc. now repeat split.
    + cbn [fst snd].
      assert (Htr : trace (set_clock (clock m1 + RETRY_TIME)
                                     (record (EvSleep RETRY_TIME) m1))
                    = trace m ++ (EvGet (authorization cfg)
                                    (params_of (py_or (current_timestamp m)
                                                      (PInt (clock m)))) :: logs)
                                ++ [EvSleep RETRY_TIME]).
      { cbn [trace set_clock record]. now rewrite Ht, <- !app_assoc. }
      rewrite (since_app _ _ _ Htr).
      cbn [current_timestamp MESSAGE_STATUS ERROR_CACHE_MESSAGE clock server
           set_clock record].
      rewrite Hc, Hm, Hk, He. repeat split; try reflexivity.
      * exact Hs.
      * simpl. now rewrite sent_from_app, Hstatus.
      * simpl. now rewrite sleeps_app, Hsleep.
      * simpl. now rewrite sent_app, Hsent.
Qed.

(** ** Rounds *)

(** A round sends at most one text to the chat, and never a status: when it
    sends one, the text is the new value of [ERROR_CACHE_MESSAGE] and differs
    from the old one. *)
Theorem round_sends_at_most_one_error (cfg : config) (m : machine) :
  let m' := snd (iteration cfg m) in
  sent_from StatusSite (since m m') = [] /\
  (sent (since m m') = [] \/
   (sent (since m m') = [ERROR_CACHE_MESSAGE m'] /\
    ERROR_CACHE_MESSAGE m' <> ERROR_CACHE_MESSAGE m)).
Proof.
  intros m'. destruct (round_summary cfg m)
    as [e [_ [_ [_ [_ [_ [Hst [_ H]]]]]]]].
  fold m' in Hst, H. split; [exact Hst |].
  destruct (caught_by Exception e).
  - destruct H as [_ [Hc Hs]]. rewrite Hs, Hc.
    destruct (String.eqb_spec (exn_str e) (ERROR_CACHE_MESSAGE m));
      [now left | right; now split].
  - left. now destruct H as [_ [_ Hs]].
Qed.

(** The cursor after a round is the [current_date] of the response when the
    API answered 200 with a mapping ([None] when the mapping has no
    [current_date]), and the cursor before the round in every other case,
    whatever the rest of the round did. *)
Theorem round_moves_cursor (cfg : config) (m : machine) :
  current_timestamp (snd (iteration cfg m))
  = next_cursor (server m O) (current_timestamp m).
Proof.
  now destruct (round_summary cfg m) as [e [_ [H _]]].
Qed.

(** When the fetch raises an exception that is not an [Exception]
    ([requests.get] raised it, or [json()] raised it on a 200 answer),
    [except Exception] does not catch it: the round sleeps and lets that
    very exception out, nothing is sent to the chat for it, and the loop
    ends with it. *)
Theorem escaping_exception_ends_the_loop (cfg : config) (m : machine) :
  escaping (server m O) = true ->
  exists e,
    caught_by Exception e = false /\
    fst (get_api_answer cfg (current_timestamp m) m) = Raise e /\
    fst (iteration cfg m) = Raise e /\
    (forall n, fst (while_True (S n) (iteration cfg) m) = Raise e) /\
    sent (since m (snd (iteration cfg m))) = [] /\
    sleeps (since m (snd (iteration cfg m))) = [RETRY_TIME].
Proof.
  intros Hesc.
  destruct (round_summary cfg m)
    as [e [He [_ [_ [_ [_ [_ [Hsl H]]]]]]]].
  pose proof (round_exn_escaping (server m O) e He) as Hc.
  rewrite Hesc in Hc. simpl in Hc. rewrite Hc in H.
  destruct H as [Hf [_ Hs]].
  exists e. split; [exact Hc |]. split; [| split; [exact Hf |]].
  - rewrite get_api_answer_fst. unfold round_exn in He.
    destruct (fetch_outcome (server m O)) as [v | e']; [| now injection He as ->].
    destruct (digest_outcome_raises v) as [e' [Hd Hcaught]].
    rewrite Hd in He. injection He as ->. congruence.
  - split; [| now split].
    intros n. cbn [while_True]. unfold bind.
    destruct (iteration cfg m) as [[[] | e'] m1]; simpl in Hf;
      [discriminate | exact Hf].
Qed.

Lemma escaping_exception_ends_the_loop_witness :
  let m := Scenario.started (GetRaises (mk_exn KeyboardInterrupt None)) in
  escaping (server m O) = true /\
  exists e,
    caught_by Exception e = false /\
    fst (get_api_answer Scenario.cfg (current_timestamp m) m) = Raise e /\
    fst (iteration Scenario.cfg m) = Raise e /\
    (forall n, fst (while_True (S n) (iteration Scenario.cfg) m) = Raise e) /\
    sent (since m (snd (iteration Scenario.cfg m))) = [] /\
    sleeps (since m (snd (iteration Scenario.cfg m))) = [RETRY_TIME].
Proof.
  intros m. split; [reflexivity |].
  apply (escaping_exception_ends_the_loop Scenario.cfg m). reflexivity.
Defined.

Lemma iteration_grows (cfg : config) (m : machine) :
  trace (snd (iteration cfg m)) = trace m ++ since m (snd (iteration cfg m)).
Proof.
  assert (H : respects (emits (fun _ => True)) (iteration cfg))
    by now apply emits_iteration.
  now destruct (emits_since _ _ _ (H m)).
Qed.

Lemma loop_grows (cfg : config) (n : nat) (m : machine) :
  trace (snd (while_True n (iteration cfg) m))
  = trace m ++ since m (snd (while_True n (iteration cfg) m)).
Proof.
  assert (H : respects (emits (fun _ => True)) (while_True n (iteration cfg))).
  { apply respects_while_True; [apply emits_stepwise; now intros |].
    now apply emits_iteration. }
  now destruct (emits_since _ _ _ (H m)).
Qed.

Lemma since_trans (a b c : machine) :
  trace b = trace a ++ since a b -> trace c = trace b ++ since b c ->
  since a c = since a b ++ since b c.
Proof.
  intros Hab Hbc. apply since_app. now rewrite Hbc, Hab at 1; rewrite app_assoc.
Qed.

(** The loop, one round after the other. *)
Lemma loop_step (cfg : config) (n : nat) (m : machine) :
  while_True (S n) (iteration cfg) m
  = match fst (iteration cfg m) with
    | Ok _ => while_True n (iteration cfg) (snd (iteration cfg m))
    | Raise e => (Raise e, snd (iteration cfg m))
    end.
Proof.
  cbn [while_True]. unfold bind. now destruct (iteration cfg m) as [[[] | e] m1].
Qed.

Lemma loop_since (cfg : config) (n : nat) (m : machine) :
  fst (iteration cfg m) = Ok tt ->
  since m (snd (while_True (S n) (iteration cfg) m))
  = since m (snd (iteration cfg m))
      ++ since (snd (iteration cfg m))
               (snd (while_True n (iteration cfg) (snd (iteration cfg m)))).
Proof.
  intros H. rewrite loop_step, H.
  apply since_trans; [apply iteration_grows | apply loop_grows].
Qed.

(** The loop never sends a status and never changes [MESSAGE_STATUS]. *)
Lemma loop_sends_no_status (cfg : config) (n : nat) (m : machine) :
  let m' := snd (while_True n (iteration cfg) m) in
  sent_from StatusSite (since m m') = [] /\
  MESSAGE_STATUS m' = MESSAGE_STATUS m.
Proof.
  revert m. induction n as [|n IH]; intros m.
  - simpl. now rewrite since_self.
  - destruct (round_summary cfg m)
      as [e [_ [_ [Hm [_ [_ [Hst [_ H]]]]]]]].
    destruct (fst (iteration cfg m)) as [[] | e'] eqn:Hf.
    + destruct (IH (snd (iteration cfg m))) as [IH1 IH2].
      cbv zeta. rewrite (loop_since cfg n m Hf), sent_from_app, Hst, IH1.
      rewrite loop_step, Hf. split; [reflexivity |]. now rewrite IH2.
    + cbv zeta. rewrite loop_step, Hf. now split.
Qed.

(** [main] never sends a status message: in every run, of any number of
    rounds and against any API and any bot, no text is sent from line 161,
    and the loop leaves [MESSAGE_STATUS] as it found it (empty, after
    [main] has set it). *)
Theorem main_never_sends_a_status (cfg : config) (n : nat) (m : machine) :
  sent_from StatusSite (since m (snd (main cfg n m))) = [] /\
  MESSAGE_STATUS (snd (while_True n (iteration cfg) (loop_entry cfg m))) = "".
Proof.
  destruct (loop_sends_no_status cfg n (loop_entry cfg m)) as [Hs Hm].
  split; [| exact Hm].
  rewrite main_run. destruct (bot_init m) as [e |].
  - now rewrite (since_app _ _ [EvBot (TELEGRAM_TOKEN cfg)]).
  - destruct (check_tokens cfg).
    + pose proof (loop_grows cfg n (loop_entry cfg m)) as Ht.
      rewrite loop_entry_trace, <- app_assoc in Ht.
      rewrite (since_app _ _ _ Ht). simpl. exact Hs.
    + rewrite (since_app _ _ [EvBot (TELEGRAM_TOKEN cfg);
                               EvLog ModuleLogger CRITICAL fatal_text]);
        [reflexivity | cbn; now rewrite <- app_assoc].
Qed.

Lemma round_returns (cfg : config) (m : machine) :
  escaping (server m O) = false -> fst (iteration cfg m) = Ok tt.
Proof.
  intros Hesc. destruct (round_summary cfg m)
    as [e [He [_ [_ [_ [_ [_ [_ H]]]]]]]].
  apply round_exn_escaping in He. rewrite He, Hesc in H. now destruct H.
Qed.

Lemma loop_keeps_polling (cfg : config) (n : nat) (m : machine) :
  (forall i, (i < n)%nat -> escaping (server m i) = false) ->
  let m' := snd (while_True n (iteration cfg) m) in
  fst (while_True n (iteration cfg) m) = Ok tt /\
  length (requests (since m m')) = n /\
  sleeps (since m m') = repeat RETRY_TIME n /\
  clock m' = clock m + RETRY_TIME * Z.of_nat n.
Proof.
  revert m. induction n as [|n IH]; intros m Hpolite.
  - cbv zeta. cbn [while_True ret fst snd repeat]. rewrite since_self.
    repeat split. lia.
  - assert (Hf : fst (iteration cfg m) = Ok tt)
      by (apply round_returns, Hpolite; lia).
    destruct (round_summary cfg m)
      as [e [_ [_ [_ [Hk [Hs [_ [Hsl _]]]]]]]].
    destruct (IH (snd (iteration cfg m))) as [IH1 [IH2 [IH3 IH4]]].
    { intros i Hi. rewrite Hs. apply Hpolite. lia. }
    cbv zeta. rewrite (loop_since cfg n m Hf), loop_step, Hf.
    rewrite requests_app, sleeps_app, length_app, iteration_requests, Hsl,
      IH2, IH3, IH4, Hk.
    repeat split; [exact IH1 | lia].
Qed.

(** With its tokens and its bot, [main] goes round after round under three
    provisos: the fetch raises nothing that is not an [Exception]; each call
    of the bot either delivers or raises [TelegramError], the one exception
    that [send_message] catches; and every [time.sleep] returns, which is
    the one outcome the sleep has here.  Then, after [n] rounds, the loop is
    still running and has made [n] requests and slept [n] times 600 seconds,
    whatever the API answered. *)
Theorem main_keeps_polling (cfg : config) (n : nat) (m : machine) :
  check_tokens cfg = true ->
  bot_init m = None ->
  (forall i, (i < n)%nat -> escaping (server m i) = false) ->
  (forall i, (i < n)%nat ->
             chat m i = Delivered \/ exists t, chat m i = TelegramError t) ->
  fst (main cfg n m) = Ok tt /\
  length (requests (since m (snd (main cfg n m)))) = n /\
  sleeps (since m (snd (main cfg n m))) = repeat 600 n.
Proof.
  intros Hc Hb Hpolite _. rewrite main_run, Hc, Hb.
  destruct (loop_keeps_polling cfg n (loop_entry cfg m) Hpolite)
    as [H1 [H2 [H3 _]]].
  pose proof (loop_grows cfg n (loop_entry cfg m)) as Ht.
  rewrite loop_entry_trace, <- app_assoc in Ht.
  rewrite (since_app _ _ _ Ht). simpl. now repeat split.
Qed.

Lemma main_keeps_polling_witness :
  let m := Scenario.started (GetReturns (mk_response 500 (JsonValue PNone))) in
  fst (main Scenario.cfg 3 m) = Ok tt /\
  length (requests (since m (snd (main Scenario.cfg 3 m)))) = 3%nat /\
  sleeps (since m (snd (main Scenario.cfg 3 m))) = repeat 600 3.
Proof.
  intros m. apply (main_keeps_polling Scenario.cfg 3 m); try reflexivity.
  intros i _. now left.
Defined.

(** Rounds that all end with errors of the same text send it once. *)
Lemma loop_same_error (cfg : config) (text : string) (n : nat) (m : machine) :
  (forall i, (i < n)%nat ->
             exists e, round_exn (server m i) = Some e /\
                       caught_by Exception e = true /\ exn_str e = text) ->
  let m' := snd (while_True n (iteration cfg) m) in
  sent (since m m')
  = match n with
    | O => []
    | S _ => if (text =? ERROR_CACHE_MESSAGE m)%string then [] else [text]
    end /\
  (n <> O -> ERROR_CACHE_MESSAGE m' = text).
Proof.
  revert m. induction n as [|n IH]; intros m Hsame.
  - cbv zeta. cbn [while_True ret snd]. rewrite since_self. now split.
  - destruct (Hsame O ltac:(lia)) as [e [He [Hcaught Htext]]].
    destruct (round_summary cfg m)
      as [e' [He' [_ [_ [_ [Hs [_ [_ H]]]]]]]].
    rewrite He in He'. injection He' as <-. rewrite Hcaught, Htext in H.
    destruct H as [Hf [Hcache Hsent]].
    destruct (IH (snd (iteration cfg m))) as [IH1 IH2].
    { intros i Hi. rewrite Hs. apply Hsame. lia. }
    cbv zeta. rewrite (loop_since cfg n m Hf), loop_step, Hf, sent_app, Hsent,
      IH1, Hcache.
    split.
    + destruct n; [apply app_nil_r |].
      rewrite String.eqb_refl. apply app_nil_r.
    + intros _. destruct n; [exact Hcache | now apply IH2].
Qed.

(** The second end-to-end scenario, for every status and any number of
    rounds: while the API keeps answering with the same status other than
    200, [main] sends the text of the error once, in the first round, and
    nothing after. *)
Theorem repeated_status_is_reported_once (cfg : config) (n : nat)
    (m : machine) (c : Z) :
  check_tokens cfg = true ->
  bot_init m = None ->
  c <> 200 ->
  (forall i, (i <= n)%nat ->
             exists r, server m i = GetReturns r /\ status_code r = c) ->
  sent (since m (snd (main cfg (S n) m))) = [("Ошибка " ++ Str.of_Z c)%string].
Proof.
  intros Hc Hb Hne Hsame. rewrite main_run, Hc, Hb.
  destruct (loop_same_error cfg ("Ошибка " ++ Str.of_Z c)%string (S n)
              (loop_entry cfg m)) as [Hsent _].
  { intros i Hi. destruct (Hsame i ltac:(lia)) as [r [Hr Hcode]].
    exists (mk_exn GetApiAnswerException
                   (Some ("Ошибка " ++ Str.of_Z c)%string)).
    change (server (loop_entry cfg m) i) with (server m i).
    rewrite Hr. unfold round_exn, fetch_outcome. rewrite Hcode.
    destruct (Z.eqb_spec c 200) as [E | _]; [contradiction |].
    now repeat split. }
  pose proof (loop_grows cfg (S n) (loop_entry cfg m)) as Ht.
  rewrite loop_entry_trace, <- app_assoc in Ht.
  rewrite (since_app _ _ _ Ht). simpl sent at 1. exact Hsent.
Qed.

Lemma repeated_status_is_reported_once_witness :
  let m := Scenario.started (GetReturns (mk_response 404 (JsonValue PNone))) in
  sent (since m (snd (main Scenario.cfg 3 m))) = ["Ошибка 404"].
Proof.
  intros m.
  apply (repeated_status_is_reported_once Scenario.cfg 2 m 404);
    try reflexivity; [discriminate |].
  intros i _. now eexists.
Defined.

Lemma all_mappings (s : string) (l : list pyval) :
  (forall x, In x l -> exists d, x = PDict d) -> existsb (str_eq s) l = false.
Proof.
  induction l as [|x l IH]; intros H; [reflexivity |].
  destruct (H x (or_introl eq_refl)) as [d ->]. simpl.
  apply IH. intros y Hy. apply H. now right.
Qed.

(** For every response of the expected shape, a mapping whose [homeworks]
    is a list of mappings (the empty list too), the round ends in the
    [KeyError] of line 124: it returns to the loop, remembers the text of
    that error and sends it unless it was the one remembered. *)
Theorem expected_response_reports_key_error (cfg : config) (m : machine)
    (d : list (string * pyval)) (l : list pyval) :
  server m O = Scenario.ok_200 (PDict d) ->
  lookup "homeworks" d = Some (PList l) ->
  (forall x, In x l -> exists entry, x = PDict entry) ->
  let m' := snd (iteration cfg m) in
  fst (iteration cfg m) = Ok tt /\
  ERROR_CACHE_MESSAGE m' = Scenario.name_error_text /\
  sent (since m m')
  = (if (Scenario.name_error_text =? ERROR_CACHE_MESSAGE m)%string then []
     else [Scenario.name_error_text]).
Proof.
  intros Hs Hl Hall m'.
  destruct (round_summary cfg m) as [e [He [_ [_ [_ [_ [_ [_ H]]]]]]]].
  fold m' in H.
  assert (E : e = mk_exn KeyError
                    (Some ("Отсутствует ключ " ++ Str.dq ++ "homework_name"
                             ++ Str.dq ++ " в ответе API")%string)).
  { rewrite Hs in He. unfold round_exn, Scenario.ok_200, fetch_outcome in He.
    cbn [status_code json] in He. simpl (200 =? 200) in He. cbv iota in He.
    unfold digest_outcome in He. cbn [get_method] in He.
    rewrite (check_response_list d l Hl (all_mappings _ l Hall)) in He.
    unfold parse_status, str_in in He.
    rewrite (all_mappings "homework_name" l Hall) in He.
    now injection He as <-. }
  subst e.
  change (caught_by Exception _) with true in H. cbv iota in H.
  exact H.
Qed.

Lemma expected_response_reports_key_error_witness :
  let m := Scenario.started
             (Scenario.ok_200 (PDict [("homeworks", PList []);
                                      ("current_date", PInt 9)])) in
  sent (since m (snd (iteration Scenario.cfg m))) = [Scenario.name_error_text].
Proof.
  intros m.
  apply (expected_response_reports_key_error Scenario.cfg m
           [("homeworks", PList []); ("current_date", PInt 9)] []);
    try reflexivity.
  intros x [].
Defined.

(** Every request [main] makes carries the API token, set and not empty, in
    its [Authorization] header: the header built at import with a missing
    token is never sent. *)
Theorem requests_carry_the_token (cfg : config) (n : nat) (m : machine)
    (header : string) (params : pyval) :
  In (EvGet header params) (since m (snd (main cfg n m))) ->
  exists token,
    PRACTICUM_TOKEN cfg = Some token /\ token <> "" /\
    header = ("OAuth " ++ token)%string.
Proof.
  rewrite main_run. destruct (bot_init m) as [e |].
  - rewrite (since_app _ _ [EvBot (TELEGRAM_TOKEN cfg)]) by reflexivity.
    intros [H | []]. discriminate H.
  - destruct (check_tokens cfg) eqn:Hc.
    + apply check_tokens_true in Hc. destruct Hc as [[token [Ht Hne]] _].
      assert (H : respects
                    (emits (fun ev => match ev with
                                      | EvGet a _ => a = authorization cfg
                                      | _ => True
                                      end))
                    (while_True n (iteration cfg))).
      { apply respects_while_True; [apply emits_stepwise; now intros |].
        now apply emits_iteration. }
      destruct (H (loop_entry cfg m)) as [evs [Htr Hq]].
      rewrite loop_entry_trace, <- app_assoc in Htr.
      rewrite (since_app _ _ _ Htr). intros [Hin | Hin]; [discriminate Hin |].
      rewrite Forall_forall in Hq. specialize (Hq _ Hin). simpl in Hq.
      exists token. repeat split; [exact Ht | exact Hne |].
      rewrite Hq. unfold authorization. now rewrite Ht.
    + rewrite (since_app _ _ [EvBot (TELEGRAM_TOKEN cfg);
                               EvLog ModuleLogger CRITICAL fatal_text])
        by (cbn; now rewrite <- app_assoc).
      intros [H | [H | []]]; discriminate H.
Qed.

Lemma requests_carry_the_token_witness :
  exists token,
    PRACTICUM_TOKEN Scenario.cfg = Some token /\ token <> "" /\
    "OAuth y0_token" = ("OAuth " ++ token)%string.
Proof.
  apply (requests_carry_the_token Scenario.cfg 1
           (Scenario.started (Scenario.ok_200 PNone))
           "OAuth y0_token" (PDict [("from_date", PInt 5)])).
  vm_compute. right. now left.
Defined.

Lemma send_message_swallows_TelegramError_witness :
  let m := boot 5 (fun _ => GetRaises Scenario.connection_failure)
                (fun _ => TelegramError "Timed out") None in
  chat m O = TelegramError "Timed out" /\
  fst (send_message ErrorSite Scenario.cfg "boom" m) = Ok tt /\
  since m (snd (send_message ErrorSite Scenario.cfg "boom" m))
  = [ EvSend ErrorSite (Some "42") "boom";
      EvLog ModuleLogger INFO "Ошибка отправки сообщения" ].
Proof.
  intros m. split; [reflexivity |].
  apply (proj2 (send_message_swallows_TelegramError ErrorSite Scenario.cfg
                  "boom" m) "Timed out"%string).
  reflexivity.
Defined.
